(** * UniSwap: the listing form controller and the products access policy

    A shallow embedding of
    - [src/components/SellItemModal.tsx] ([normalizePhone], the three-step
      form and [handleSubmit]),
    - [src/components/EditItemModal.tsx] ([handleSave]),
    - [supabase/migrations/*.sql] (the row-level-security policies of the
      [products] table),
    together with the properties the specification states about them. *)

From stdpp Require Import base decidable option list strings gmap.
From Stdlib Require Import NArith Bool Lia.

Local Open Scope N_scope.

(** ** JavaScript strings

    A JavaScript string is a finite sequence of UTF-16 code units; the
    string methods used by the form ([trim], [startsWith], [replace]) work
    on code units. *)
Module JsString.

Abbreviation jsstring := (list N).

(** An ASCII literal of the source as a sequence of code units. *)
Definition lit (s : string) : jsstring :=
  List.map Ascii.N_of_ascii (String.list_ascii_of_string s).

Definition plus_sign : N := 43.
Definition zero_digit : N := 48.

(** [\d] without the [u] flag: the code units of [0]..[9]. *)
Definition is_digit (c : N) : bool := (48 <=? c) && (c <=? 57).

(** [\D] is the complement of [\d]. *)
Definition is_non_digit (c : N) : bool := negb (is_digit c).

(** ECMAScript WhiteSpace and LineTerminator code points, the characters
    [String.prototype.trim] removes: TAB, LF, VT, FF, CR, SP, NBSP, the
    Unicode space separators (Zs), LS, PS and the byte order mark. *)
Definition is_white_space (c : N) : bool :=
  existsb (N.eqb c)
    [9; 10; 11; 12; 13; 32; 160; 5760; 8232; 8233; 8239; 8287; 12288; 65279]
  || ((8192 <=? c) && (c <=? 8202)).

Fixpoint drop_while (p : N → bool) (s : jsstring) : jsstring :=
  match s with
  | [] => []
  | c :: s' => if p c then drop_while p s' else s
  end.

Definition trimStart (s : jsstring) : jsstring := drop_while is_white_space s.
Definition trimEnd (s : jsstring) : jsstring :=
  reverse (drop_while is_white_space (reverse s)).

(** [s.trim()] *)
Definition trim (s : jsstring) : jsstring := trimEnd (trimStart s).

(** [s.startsWith(p)] *)
Fixpoint startsWith (s p : jsstring) {struct p} : bool :=
  match p, s with
  | [], _ => true
  | _ :: _, [] => false
  | a :: p', b :: s' => (a =? b) && startsWith s' p'
  end.

(** [s.replace(/\D/g, '')]: every non-digit code unit is removed. *)
Definition remove_non_digits (s : jsstring) : jsstring :=
  List.filter (λ c, negb (is_non_digit c)) s.

(** [s.replace(/^0+/, '')]: the longest run of [0] at the start is removed
    (the pattern is anchored and has no [m] flag). *)
Definition remove_leading_zeros (s : jsstring) : jsstring :=
  drop_while (N.eqb zero_digit) s.

(** [s.replace(c, '')] with a string pattern: only the first occurrence is
    removed. *)
Fixpoint remove_first (c : N) (s : jsstring) : jsstring :=
  match s with
  | [] => []
  | a :: s' => if a =? c then s' else a :: remove_first c s'
  end.

(** JavaScript truthiness of a string: non-empty. *)
Definition truthy (s : jsstring) : bool :=
  match s with [] => false | _ :: _ => true end.

End JsString.

(** ** Phone normalization ([SellItemModal.tsx], lines 20 and 31-47) *)
Module Phone.
Import JsString.

Definition countryCodes : list jsstring :=
  [lit "+91"; lit "+1"; lit "+44"; lit "+61"; lit "+81"].

Definition normalizePhone (countryCode rawPhone : jsstring) : jsstring :=
  let trimmed := trim rawPhone in
  if negb (truthy trimmed) then []
  else if startsWith trimmed [plus_sign] then
    plus_sign :: remove_non_digits trimmed
  else
    let digits := remove_leading_zeros (remove_non_digits trimmed) in
    let code := remove_first plus_sign countryCode in
    if startsWith digits code then plus_sign :: digits
    else countryCode ++ digits.

(** A dial code as the form offers them: [+] followed by decimal digits. *)
Definition is_dial_code (c : jsstring) : bool :=
  match c with
  | [] => false
  | p :: ds => (p =? plus_sign) && forallb is_digit ds
  end.

(** *** The algorithm as the specification words it

    The five steps, stated declaratively: what it means to be the trimmed
    value, the digits of a string, and a digit string without its leading
    zeros. *)

Definition no_space_at_ends (t : jsstring) : Prop :=
  (∀ c, head t = Some c → is_white_space c = false) ∧
  (∀ c, last t = Some c → is_white_space c = false).

(** [t] is [s] with the white space at both ends removed. *)
Definition Trimmed (s t : jsstring) : Prop :=
  ∃ l r, s = l ++ t ++ r ∧
         Forall (λ c, is_white_space c = true) l ∧
         Forall (λ c, is_white_space c = true) r ∧
         no_space_at_ends t.

(** [d] is [t] with all non-digit characters stripped. *)
Inductive DigitsOf : jsstring → jsstring → Prop :=
| DigitsOf_nil : DigitsOf [] []
| DigitsOf_keep c t d :
    is_digit c = true → DigitsOf t d → DigitsOf (c :: t) (c :: d)
| DigitsOf_skip c t d :
    is_digit c = false → DigitsOf t d → DigitsOf (c :: t) d.

(** [d'] is [d] with any leading zeros stripped. *)
Definition ZerosStripped (d d' : jsstring) : Prop :=
  ∃ k, d = replicate k zero_digit ++ d' ∧ head d' ≠ Some zero_digit.

Inductive NormalizeSpec (countryCode rawPhone : jsstring) : jsstring → Prop :=
| Step1_empty :
    (* 1. Trim input; if empty, result is empty. *)
    Trimmed rawPhone [] →
    NormalizeSpec countryCode rawPhone []
| Step2_plus t d :
    (* 2. The trimmed value starts with [+]: strip all non-digit
          characters and re-prepend [+]. *)
    Trimmed rawPhone (plus_sign :: t) →
    DigitsOf (plus_sign :: t) d →
    NormalizeSpec countryCode rawPhone (plus_sign :: d)
| Step4_has_code t c d d' codeDigits :
    (* 3. Otherwise strip all non-digit characters, then any leading
          zeros.  4. The digit string already starts with the country
          code's digits: prepend [+] to it as it is. *)
    Trimmed rawPhone (c :: t) → c ≠ plus_sign →
    DigitsOf (c :: t) d → ZerosStripped d d' →
    countryCode = plus_sign :: codeDigits →
    codeDigits `prefix_of` d' →
    NormalizeSpec countryCode rawPhone (plus_sign :: d')
| Step5_add_code t c d d' codeDigits :
    (* 5. Otherwise prepend the full country code. *)
    Trimmed rawPhone (c :: t) → c ≠ plus_sign →
    DigitsOf (c :: t) d → ZerosStripped d d' →
    countryCode = plus_sign :: codeDigits →
    ¬ codeDigits `prefix_of` d' →
    NormalizeSpec countryCode rawPhone (countryCode ++ d').

End Phone.

(** ** The [products] table ([supabase/migrations], [lib/supabase.ts]) *)
Module Schema.
Import JsString.

(** An account identifier ([auth.users.id], [auth.uid()]), as the client
    sees it: a string. *)
Abbreviation uuid := (list N).

(** A JavaScript number that reaches the store.  The form produces it from
    the text of the price field with [parseFloat] (sell form) or [Number]
    (edit form); its numeric value plays no role here. *)
Inductive JsNum :=
| parseFloat (text : jsstring)
| Number (text : jsstring).

(** A row of [products]: the columns of the first migration plus the
    nullable [owner_id] of the second ([interface Product]). *)
Record Product := {
  id : uuid;
  title : jsstring;
  description : jsstring;
  price : JsNum;
  condition : jsstring;
  category : jsstring;
  image_url : jsstring;
  seller_name : jsstring;
  seller_phone : jsstring;
  owner_id : option uuid;
  created_at : jsstring;
}.

(** A value of an object literal handed to the client library. *)
Inductive JsValue :=
| VNull
| VStr (s : jsstring)
| VNum (n : JsNum).

(** A JavaScript object used as a record of column values. *)
Abbreviation Payload := (gmap string JsValue).

Definition text_column (p : Payload) (col : string) : option jsstring :=
  match p !! col with
  | Some (VStr s) => Some s
  | _ => None
  end.

Definition num_column (p : Payload) (col : string) : option JsNum :=
  match p !! col with
  | Some (VNum n) => Some n
  | _ => None
  end.

(** The candidate row of [INSERT INTO products]: columns absent from the
    payload take their default.  [id] and [created_at] default to values
    the server generates, [condition] to ['Used'], [owner_id] (added
    without a default) to NULL; the other columns are NOT NULL without a
    default, so a payload without them is refused ([None]). *)
Definition candidate_row (server_id : uuid) (server_now : jsstring)
    (p : Payload) : option Product :=
  t ← text_column p "title";
  d ← text_column p "description";
  pr ← num_column p "price";
  c ← text_column p "category";
  i ← text_column p "image_url";
  sn ← text_column p "seller_name";
  sp ← text_column p "seller_phone";
  Some {| id := default server_id (text_column p "id");
          title := t; description := d; price := pr;
          condition := default (lit "Used") (text_column p "condition");
          category := c; image_url := i;
          seller_name := sn; seller_phone := sp;
          owner_id := text_column p "owner_id";
          created_at := default server_now (text_column p "created_at") |}.

(** The row after [UPDATE products SET ...]: the columns of the payload are
    overwritten, the others keep their value. *)
Definition updated_row (old : Product) (p : Payload) : Product :=
  {| id := default (id old) (text_column p "id");
     title := default (title old) (text_column p "title");
     description := default (description old) (text_column p "description");
     price := default (price old) (num_column p "price");
     condition := default (condition old) (text_column p "condition");
     category := default (category old) (text_column p "category");
     image_url := default (image_url old) (text_column p "image_url");
     seller_name := default (seller_name old) (text_column p "seller_name");
     seller_phone := default (seller_phone old) (text_column p "seller_phone");
     owner_id := match p !! "owner_id" with
                 | Some (VStr u) => Some u
                 | Some VNull => None
                 | _ => owner_id old
                 end;
     created_at := default (created_at old) (text_column p "created_at") |}.

End Schema.

(** ** Row-level security of [products] ([supabase/migrations/*.sql])

    The two migrations are embedded as the statements they contain, run in
    the order of their timestamps against an empty database; the policies
    in force are the ones the resulting catalog holds.  The decision
    procedure is PostgreSQL's: the policies of a table that apply to the
    command and to the role are combined with OR (every policy of the
    migrations is PERMISSIVE, the default), an expression that evaluates to
    NULL counts as failed, and a table with row security enabled and no
    applicable policy denies. *)
Module Policy.
Import JsString Schema.

Inductive command := SELECT | INSERT | UPDATE | DELETE.

(** The roles of the hosted API: requests without a session run as [anon],
    requests with one as [authenticated]. *)
Inductive role := anon | authenticated.

(** The [TO] clause; without one a policy is for PUBLIC, every role. *)
Inductive policy_roles := PUBLIC | TO (r : role).

(** The [FOR] clause. *)
Inductive policy_command := FOR_ALL | FOR (c : command).

(** The boolean expressions the migrations use. *)
Inductive expr :=
| sql_true                      (* [true] *)
| owner_id_is_auth_uid.         (* [owner_id = auth.uid()] *)

Record policy := {
  polname : string;
  polcmd : policy_command;
  polroles : policy_roles;
  polqual : option expr;        (* USING *)
  polwithcheck : option expr;   (* WITH CHECK *)
}.

(** The column types the migrations use. *)
Inductive sql_type :=
| sql_uuid
| sql_text
| sql_numeric
| sql_timestamptz.

Record table := {
  columns : list (string * sql_type);
  row_security : bool;
  policies : list policy;
}.

(** The database as far as the migrations touch it: the [products] table,
    if it exists. *)
Abbreviation database := (option table).

Inductive statement :=
| create_table_if_not_exists (cols : list (string * sql_type))
| add_column_if_not_exists (col : string) (ty : sql_type)
| enable_row_level_security
| drop_policy_if_exists (name : string)
| create_policy (p : policy).

Definition mentions_owner_id (e : option expr) : bool :=
  match e with
  | Some owner_id_is_auth_uid => true
  | _ => false
  end.

Definition has_policy (name : string) (t : table) : bool :=
  existsb (λ p, String.eqb (polname p) name) (policies t).

Definition has_column (col : string) (t : table) : bool :=
  existsb (λ c, String.eqb col c.1) (columns t).

(** The type of a column, if the table has it. *)
Definition column_type (col : string) (t : table) : option sql_type :=
  snd <$> List.find (λ c, String.eqb col c.1) (columns t).

(** [owner_id = auth.uid()] type-checks: the table has a column [owner_id]
    and its type is that of [auth.uid()], [uuid] ([text], [numeric] and
    [timestamptz] have no [=] with [uuid]). *)
Definition owner_id_comparable (t : table) : bool :=
  match column_type "owner_id" t with
  | Some sql_uuid => true
  | _ => false
  end.

(** One statement; [None] is an SQL error (no such table, no such column
    or operator, a policy of that name already exists). *)
Definition exec (st : statement) (db : database) : option database :=
  match st, db with
  | create_table_if_not_exists cols, None =>
      Some (Some {| columns := cols; row_security := false; policies := [] |})
  | create_table_if_not_exists _, Some t => Some (Some t)
  | _, None => None
  | add_column_if_not_exists col ty, Some t =>
      Some (Some {| columns := if has_column col t then columns t
                               else columns t ++ [(col, ty)];
                    row_security := row_security t;
                    policies := policies t |})
  | enable_row_level_security, Some t =>
      Some (Some {| columns := columns t; row_security := true;
                    policies := policies t |})
  | drop_policy_if_exists name, Some t =>
      Some (Some {| columns := columns t; row_security := row_security t;
                    policies :=
                      List.filter (λ p, negb (String.eqb (polname p) name))
                                  (policies t) |})
  | create_policy p, Some t =>
      if has_policy (polname p) t then None
      else if (mentions_owner_id (polqual p)
               || mentions_owner_id (polwithcheck p))
              && negb (owner_id_comparable t) then None
      else Some (Some {| columns := columns t;
                         row_security := row_security t;
                         policies := policies t ++ [p] |})
  end.

Fixpoint run (script : list statement) (db : database) : option database :=
  match script with
  | [] => Some db
  | st :: rest => db' ← exec st db; run rest db'
  end.

(** [20260213160631_create_products_table.sql] *)
Definition create_products_table : list statement := [
  create_table_if_not_exists
    [("id", sql_uuid); ("title", sql_text); ("description", sql_text);
     ("price", sql_numeric); ("condition", sql_text); ("category", sql_text);
     ("image_url", sql_text); ("seller_name", sql_text);
     ("seller_phone", sql_text); ("created_at", sql_timestamptz)];
  enable_row_level_security;
  create_policy {| polname := "Anyone can view products";
                   polcmd := FOR SELECT; polroles := PUBLIC;
                   polqual := Some sql_true; polwithcheck := None |};
  create_policy {| polname := "Anyone can create products";
                   polcmd := FOR INSERT; polroles := PUBLIC;
                   polqual := None; polwithcheck := Some sql_true |}
]%string.

(** [20260215193000_enforce_owner_based_updates.sql] *)
Definition enforce_owner_based_updates : list statement := [
  add_column_if_not_exists "owner_id" sql_uuid;
  enable_row_level_security;
  drop_policy_if_exists "Authenticated can view products";
  drop_policy_if_exists "Authenticated can create products";
  drop_policy_if_exists "Authenticated can update products";
  create_policy {| polname := "Authenticated can view products";
                   polcmd := FOR SELECT; polroles := TO authenticated;
                   polqual := Some sql_true; polwithcheck := None |};
  create_policy {| polname := "Authenticated can create products";
                   polcmd := FOR INSERT; polroles := TO authenticated;
                   polqual := None;
                   polwithcheck := Some owner_id_is_auth_uid |};
  create_policy {| polname := "Authenticated can update products";
                   polcmd := FOR UPDATE; polroles := TO authenticated;
                   polqual := Some owner_id_is_auth_uid;
                   polwithcheck := Some owner_id_is_auth_uid |}
]%string.

(** The migrations in timestamp order. *)
Definition migrations : list statement :=
  create_products_table ++ enforce_owner_based_updates.

(** The [products] table after the migrations (the fallback, never taken,
    is a table without row security). *)
Definition products : table :=
  match run migrations None with
  | Some (Some t) => t
  | _ => {| columns := []; row_security := false; policies := [] |}
  end.

(** The policies the second migration creates, on their own: what its
    header describes. *)
Definition owner_based_policies : table :=
  match run enforce_owner_based_updates
            (Some {| columns := []; row_security := false; policies := [] |})
  with
  | Some (Some t) => t
  | _ => {| columns := []; row_security := false; policies := [] |}
  end.

(** *** Callers *)

Inductive caller :=
| unauthenticated
| signed_in (uid : uuid).

Definition role_of (c : caller) : role :=
  match c with
  | unauthenticated => anon
  | signed_in _ => authenticated
  end.

(** [auth.uid()]: NULL without a session. *)
Definition auth_uid (c : caller) : option uuid :=
  match c with
  | unauthenticated => None
  | signed_in u => Some u
  end.

(** *** Evaluation *)

(** SQL [=]: NULL when either side is NULL. *)
Definition sql_eq (a b : option uuid) : option bool :=
  match a, b with
  | Some x, Some y => Some (bool_decide (x = y))
  | _, _ => None
  end.

Definition eval (e : expr) (c : caller) (row : Product) : option bool :=
  match e with
  | sql_true => Some true
  | owner_id_is_auth_uid => sql_eq (owner_id row) (auth_uid c)
  end.

(** A row passes an expression when it evaluates to true; false and NULL
    both fail. *)
Definition passes (e : expr) (c : caller) (row : Product) : bool :=
  match eval e c row with
  | Some true => true
  | _ => false
  end.

Definition for_command (p : policy) (cmd : command) : bool :=
  match polcmd p, cmd with
  | FOR_ALL, _ => true
  | FOR SELECT, SELECT | FOR INSERT, INSERT
  | FOR UPDATE, UPDATE | FOR DELETE, DELETE => true
  | _, _ => false
  end.

Definition for_role (p : policy) (r : role) : bool :=
  match polroles p, r with
  | PUBLIC, _ => true
  | TO anon, anon | TO authenticated, authenticated => true
  | _, _ => false
  end.

Definition applicable (t : table) (cmd : command) (c : caller) : list policy :=
  List.filter (λ p, for_command p cmd && for_role p (role_of c)) (policies t).

(** USING of a policy; an absent clause does not restrict. *)
Definition using_passes (p : policy) (c : caller) (row : Product) : bool :=
  match polqual p with
  | Some e => passes e c row
  | None => true
  end.

(** WITH CHECK of a policy; when absent, the USING expression is used. *)
Definition check_passes (p : policy) (c : caller) (row : Product) : bool :=
  match polwithcheck p with
  | Some e => passes e c row
  | None => using_passes p c row
  end.

(** Some applicable policy lets the existing row through. *)
Definition using_ok (t : table) (cmd : command) (c : caller)
    (row : Product) : bool :=
  negb (row_security t)
  || existsb (λ p, using_passes p c row) (applicable t cmd c).

(** Some applicable policy accepts the new row. *)
Definition check_ok (t : table) (cmd : command) (c : caller)
    (row : Product) : bool :=
  negb (row_security t)
  || existsb (λ p, check_passes p c row) (applicable t cmd c).

Inductive verdict :=
| permitted
| no_row           (* the row is filtered out: the command affects nothing *)
| violation.       (* "new row violates row-level security policy" *)

(** [SELECT]: is the row returned to the caller. *)
Definition select_verdict (t : table) (c : caller) (row : Product) : verdict :=
  if using_ok t SELECT c row then permitted else no_row.

(** [INSERT] without RETURNING, as the client issues it. *)
Definition insert_verdict (t : table) (c : caller) (new : Product) : verdict :=
  if check_ok t INSERT c new then permitted else violation.

(** [UPDATE ... WHERE id = ...]: the WHERE clause reads the row, so the
    SELECT policies apply to the existing and to the new row as well. *)
Definition update_verdict (t : table) (c : caller) (old new : Product)
    : verdict :=
  if negb (using_ok t SELECT c old && using_ok t UPDATE c old) then no_row
  else if negb (check_ok t UPDATE c new && using_ok t SELECT c new)
  then violation
  else permitted.

(** [DELETE ... WHERE ...] *)
Definition delete_verdict (t : table) (c : caller) (row : Product) : verdict :=
  if using_ok t SELECT c row && using_ok t DELETE c row then permitted
  else no_row.

Definition is_permitted (v : verdict) : bool :=
  match v with permitted => true | _ => false end.

(** [owner_id = auth.uid()] holds for a row and a caller: both sides are
    non-null and equal. *)
Definition owned_by (c : caller) (row : Product) : bool :=
  match auth_uid c, owner_id row with
  | Some u, Some o => bool_decide (o = u)
  | _, _ => false
  end.

(** A listing to evaluate the policies on. *)
Definition sample_row (owner : option uuid) : Product :=
  {| id := lit "p1"; title := lit "Calculator"; description := lit "Casio";
     price := parseFloat (lit "1200"); condition := lit "Used";
     category := lit "Electronics"; image_url := [];
     seller_name := lit "Rahul"; seller_phone := lit "+919876543210";
     owner_id := owner; created_at := lit "2026-02-16" |}.

End Policy.

(** ** What the forms see of the hosted services *)
Module Client.
Import JsString.

(** A value caught by [catch]: the test [error instanceof Error] and the
    [message] property. *)
Record Error := {
  instanceof_Error : bool;
  message : jsstring;
}.

(** The callbacks and browser calls a handler makes, in order. *)
Inductive effect :=
| console_error (e : Error)
| alert (text : jsstring)
| onSuccess
| onClose.

Definition is_alert (e : effect) : bool :=
  match e with alert _ => true | _ => false end.

Definition is_onClose (e : effect) : bool :=
  match e with onClose => true | _ => false end.

(** The parent keeps the modal open until [onClose] is called
    ([onClose={() => setShowSellModal(false)}]). *)
Definition open_after (effects : list effect) (isOpen : bool) : bool :=
  isOpen && negb (existsb is_onClose effects).

End Client.

(** ** The sell form ([SellItemModal.tsx]) *)
Module SellForm.
Import JsString Phone Client.

Record FormData := {
  title : jsstring;
  description : jsstring;
  category : jsstring;
  condition : jsstring;
  price : jsstring;
  imageUrl : jsstring;
  sellerName : jsstring;
  sellerPhone : jsstring;
}.

(** The [File] chosen in the upload input. *)
Record File := {
  name : jsstring;
  type : jsstring;
}.

(** The component's [useState] cells. *)
Record State := {
  step : nat;
  loading : bool;
  imageFile : option File;
  countryCode : jsstring;
  formData : FormData;
}.

Definition defaultFormData : FormData :=
  {| title := []; description := []; category := lit "Books";
     condition := lit "Used"; price := []; imageUrl := [];
     sellerName := []; sellerPhone := [] |}.

Definition initialState : State :=
  {| step := 1; loading := false; imageFile := None;
     countryCode := lit "+91"; formData := defaultFormData |}.

(** The options of the category select (lines 11-18). *)
Definition categories : list jsstring :=
  [lit "Books"; lit "Electronics"; lit "Lab Gear"; lit "Cycles";
   lit "Engineering Drawing"; lit "Miscellaneous"].

(** [descriptionSuggestions] (lines 22-29), an object used as a table. *)
Definition descriptionSuggestions : list (jsstring * jsstring) :=
  [(lit "Books",
    lit "Includes highlighted chapters, no torn pages, and ready for immediate use in current semester.");
   (lit "Electronics",
    lit "Fully functional with charger/accessories included. Battery and ports tested recently.");
   (lit "Lab Gear",
    lit "Maintained equipment with no leaks or cracks. Suitable for practical sessions and projects.");
   (lit "Cycles",
    lit "Smooth brakes and gears, recently serviced, ideal for campus commute with low maintenance.");
   (lit "Engineering Drawing",
    lit "Complete set with clean sheets and tools, lightly used and exam-ready condition.");
   (lit "Miscellaneous",
    lit "Useful campus item in reliable condition. Can be inspected before purchase.")].

(** [descriptionSuggestions[key]]; [None] is [undefined]. *)
Fixpoint suggestion (table : list (jsstring * jsstring)) (key : jsstring)
    : option jsstring :=
  match table with
  | [] => None
  | (k, v) :: rest => if bool_decide (k = key) then Some v
                      else suggestion rest key
  end.

(** [a || b] on strings, where [b] may be [undefined]: [undefined] is
    written as the empty string, which is as falsy. *)
Definition or_else (a : jsstring) (b : option jsstring) : jsstring :=
  if truthy a then a else default [] b.

Definition setStep (n : nat) (st : State) : State :=
  {| step := n; loading := loading st; imageFile := imageFile st;
     countryCode := countryCode st; formData := formData st |}.

Definition setLoading (b : bool) (st : State) : State :=
  {| step := step st; loading := b; imageFile := imageFile st;
     countryCode := countryCode st; formData := formData st |}.

Definition setFormData (f : FormData → FormData) (st : State) : State :=
  {| step := step st; loading := loading st; imageFile := imageFile st;
     countryCode := countryCode st; formData := f (formData st) |}.

(** [onBlur] of the phone input. *)
Definition blurSellerPhone (st : State) : State :=
  setFormData (λ prev,
    {| title := title prev; description := description prev;
       category := category prev; condition := condition prev;
       price := price prev; imageUrl := imageUrl prev;
       sellerName := sellerName prev;
       sellerPhone := normalizePhone (countryCode st) (sellerPhone prev) |})
    st.

(** *** Step gating (lines 151-153 and 405-436) *)

Definition canProceedStep1 (st : State) : bool :=
  truthy (title (formData st)) && truthy (description (formData st))
  && truthy (category (formData st)).

Definition canProceedStep2 (st : State) : bool :=
  truthy (price (formData st)) && truthy (condition (formData st)).

Definition canProceedStep3 (st : State) : bool :=
  truthy (sellerName (formData st)) && truthy (sellerPhone (formData st)).

(** [step > 1 ? <button Back> : <div />] *)
Definition backShown (st : State) : bool := Nat.ltb 1 (step st).

(** [step < 3 ? <button Next> : <button Publish>] *)
Definition nextShown (st : State) : bool := Nat.ltb (step st) 3.

(** [disabled] of the Next button. *)
Definition nextDisabled (st : State) : bool :=
  (Nat.eqb (step st) 1 && negb (canProceedStep1 st))
  || (Nat.eqb (step st) 2 && negb (canProceedStep2 st)).

(** [disabled] of the Publish button. *)
Definition publishDisabled (st : State) : bool :=
  negb (canProceedStep3 st) || loading st.

(** A click on Back; there is nothing to click when it is not rendered. *)
Definition clickBack (st : State) : State :=
  if backShown st then setStep (step st - 1) st else st.

(** A click on Next; a disabled button does not fire [onClick]. *)
Definition clickNext (st : State) : State :=
  if nextShown st && negb (nextDisabled st) then setStep (step st + 1) st
  else st.

(** *** Submission (lines 84-149) *)

(** The services [handleSubmit] calls, as functions of what it sends. *)
Record Backend := {
  (* [`${Date.now()}-${Math.random().toString(36).slice(2)}`] *)
  stamp : jsstring;
  toLowerCase : jsstring → jsstring;
  (* [storage.from('product-images').upload(...)]: the [uploadError] *)
  upload : jsstring → File → option Error;
  (* [getPublicUrl(fileName).data.publicUrl] *)
  getPublicUrl : jsstring → jsstring;
  (* [from('products').insert([record])]: the [error] *)
  insert : Schema.Payload → option Error;
}.

(** [name.split('.').pop()]: what follows the last dot, the whole name when
    it has none. *)
Fixpoint last_segment (acc s : jsstring) : jsstring :=
  match s with
  | [] => reverse acc
  | c :: s' => if c =? 46 then last_segment [] s'
               else last_segment (c :: acc) s'
  end.

Definition fileNameFor (b : Backend) (f : File) : jsstring :=
  let lowered := toLowerCase b (last_segment [] (name f)) in
  let extension := if truthy lowered then lowered else lit "jpg" in
  stamp b ++ lit "." ++ extension.

(** The image part of the [try] block: [inl] is the thrown [Error]. *)
Definition resolveImageUrl (b : Backend) (st : State) : Error + jsstring :=
  match imageFile st with
  | None => inr (trim (imageUrl (formData st)))
  | Some f =>
      let fileName := fileNameFor b f in
      match upload b fileName f with
      | Some uploadError =>
          inl {| instanceof_Error := true;
                 message := message uploadError ++
                   lit ". Create a public bucket named " ++ [34] ++
                   lit "product-images" ++ [34] ++
                   lit " in Supabase Storage." |}
      | None => inr (getPublicUrl b fileName)
      end
  end.

(** The object literal passed to [insert] (lines 114-123). *)
Definition record (st : State) (imageUrl' : jsstring) : Schema.Payload :=
  let sellerPhone' := normalizePhone (countryCode st) (sellerPhone (formData st)) in
  <["title" := Schema.VStr (title (formData st))]>
  (<["description" := Schema.VStr (description (formData st))]>
  (<["category" := Schema.VStr (category (formData st))]>
  (<["condition" := Schema.VStr (condition (formData st))]>
  (<["price" := Schema.VNum (Schema.parseFloat (price (formData st)))]>
  (<["image_url" := Schema.VStr (if truthy imageUrl' then imageUrl' else [])]>
  (<["seller_name" := Schema.VStr (sellerName (formData st))]>
  (<["seller_phone" := Schema.VStr sellerPhone']> ∅))))))).

(** The [try] block: the record the store accepted, or what was thrown. *)
Definition trySubmit (b : Backend) (st : State) : Error + Schema.Payload :=
  match resolveImageUrl b st with
  | inl thrown => inl thrown
  | inr imageUrl' =>
      let r := record st imageUrl' in
      match insert b r with
      | Some error => inl error
      | None => inr r
      end
  end.

(** [handleSubmit]: the state after the handler has run and the effects it
    had; [setLoading(true)] at entry is undone by the [finally] block. *)
Definition handleSubmit (b : Backend) (st : State) : State * list effect :=
  match trySubmit b (setLoading true st) with
  | inr _ =>
      ({| step := 1; loading := false; imageFile := None;
          countryCode := lit "+91"; formData := defaultFormData |},
       [onSuccess; onClose])
  | inl error =>
      (setLoading false st,
       [console_error error;
        alert (if instanceof_Error error then message error
               else lit "Failed to create product. Please try again.")])
  end.

(** A click on Publish. *)
Definition clickPublish (b : Backend) (st : State) : State * list effect :=
  if negb (nextShown st) && negb (publishDisabled st) then handleSubmit b st
  else (st, []).

(** *** The handlers as one transition function

    An input fires its handler only while its step is rendered
    ([step === 1 && ...]); the selects offer the entries of [categories]
    and [countryCodes], chosen here by position. *)
Inductive event :=
| ChangeTitle (value : jsstring)
| SelectCategory (option_index : nat)
| UseSuggestion
| ChangeDescription (value : jsstring)
| ChangePrice (value : jsstring)
| ChangeCondition (value : jsstring)
| ChangeImageUrl (value : jsstring)
| ChooseFile (file : File)
| ChangeSellerName (value : jsstring)
| SelectCountryCode (option_index : nat)
| ChangeSellerPhone (value : jsstring)
| BlurSellerPhone
| ClickBack
| ClickNext
| ClickPublish (b : Backend).

Definition withTitle (v : jsstring) (f : FormData) : FormData :=
  {| title := v; description := description f; category := category f;
     condition := condition f; price := price f; imageUrl := imageUrl f;
     sellerName := sellerName f; sellerPhone := sellerPhone f |}.

Definition withDescription (v : jsstring) (f : FormData) : FormData :=
  {| title := title f; description := v; category := category f;
     condition := condition f; price := price f; imageUrl := imageUrl f;
     sellerName := sellerName f; sellerPhone := sellerPhone f |}.

Definition withCategory (v : jsstring) (f : FormData) : FormData :=
  {| title := title f;
     description := or_else (description f) (suggestion descriptionSuggestions v);
     category := v;
     condition := condition f; price := price f; imageUrl := imageUrl f;
     sellerName := sellerName f; sellerPhone := sellerPhone f |}.

Definition withPrice (v : jsstring) (f : FormData) : FormData :=
  {| title := title f; description := description f; category := category f;
     condition := condition f; price := v; imageUrl := imageUrl f;
     sellerName := sellerName f; sellerPhone := sellerPhone f |}.

Definition withCondition (v : jsstring) (f : FormData) : FormData :=
  {| title := title f; description := description f; category := category f;
     condition := v; price := price f; imageUrl := imageUrl f;
     sellerName := sellerName f; sellerPhone := sellerPhone f |}.

Definition withImageUrl (v : jsstring) (f : FormData) : FormData :=
  {| title := title f; description := description f; category := category f;
     condition := condition f; price := price f; imageUrl := v;
     sellerName := sellerName f; sellerPhone := sellerPhone f |}.

Definition withSellerName (v : jsstring) (f : FormData) : FormData :=
  {| title := title f; description := description f; category := category f;
     condition := condition f; price := price f; imageUrl := imageUrl f;
     sellerName := v; sellerPhone := sellerPhone f |}.

Definition withSellerPhone (v : jsstring) (f : FormData) : FormData :=
  {| title := title f; description := description f; category := category f;
     condition := condition f; price := price f; imageUrl := imageUrl f;
     sellerName := sellerName f; sellerPhone := v |}.

Definition setImageFile (file : option File) (st : State) : State :=
  {| step := step st; loading := loading st; imageFile := file;
     countryCode := countryCode st; formData := formData st |}.

Definition setCountryCode (code : jsstring) (st : State) : State :=
  {| step := step st; loading := loading st; imageFile := imageFile st;
     countryCode := code; formData := formData st |}.

(** [descriptionSuggestions[formData.category] ||
     descriptionSuggestions.Miscellaneous] *)
Definition activeSuggestion (st : State) : jsstring :=
  or_else (default [] (suggestion descriptionSuggestions (category (formData st))))
          (suggestion descriptionSuggestions (lit "Miscellaneous")).

(** [handleFileUpload] (lines 72-82). *)
Definition handleFileUpload (file : File) (st : State) : State * list effect :=
  if negb (startsWith (type file) (lit "image/")) then
    (st, [alert (lit "Please choose a valid image file.")])
  else (setFormData (withImageUrl []) (setImageFile (Some file) st), []).

Definition on_step (n : nat) (st : State) (st' : State) : State * list effect :=
  if Nat.eqb (step st) n then (st', []) else (st, []).

Definition handle (ev : event) (st : State) : State * list effect :=
  match ev with
  | ChangeTitle v => on_step 1 st (setFormData (withTitle v) st)
  | SelectCategory i =>
      match categories !! i with
      | Some v => on_step 1 st (setFormData (withCategory v) st)
      | None => (st, [])
      end
  | UseSuggestion =>
      on_step 1 st (setFormData (withDescription (activeSuggestion st)) st)
  | ChangeDescription v => on_step 1 st (setFormData (withDescription v) st)
  | ChangePrice v => on_step 2 st (setFormData (withPrice v) st)
  | ChangeCondition v => on_step 2 st (setFormData (withCondition v) st)
  | ChangeImageUrl v =>
      on_step 2 st
        (let st' := setFormData (withImageUrl v) st in
         if truthy v then setImageFile None st' else st')
  | ChooseFile file =>
      if Nat.eqb (step st) 2 then handleFileUpload file st else (st, [])
  | ChangeSellerName v => on_step 3 st (setFormData (withSellerName v) st)
  | SelectCountryCode i =>
      match countryCodes !! i with
      | Some code => on_step 3 st (setCountryCode code st)
      | None => (st, [])
      end
  | ChangeSellerPhone v => on_step 3 st (setFormData (withSellerPhone v) st)
  | BlurSellerPhone => on_step 3 st (blurSellerPhone st)
  | ClickBack => (clickBack st, [])
  | ClickNext => (clickNext st, [])
  | ClickPublish b => clickPublish b st
  end.

(** On one of the three steps, with one of the offered country codes. *)
Definition in_range (st : State) : Prop :=
  (1 ≤ step st ≤ 3)%nat ∧ countryCode st ∈ countryCodes.

(** The states the form can be in. *)
Inductive reachable : State → Prop :=
| reachable_initial : reachable initialState
| reachable_handle ev st : reachable st → reachable (handle ev st).1.

(** What the storage side answers a submission of [st] with: the error of
    the upload, else the error of the insert, if any. *)
Definition rejection (b : Backend) (st : State) : option Error :=
  match imageFile st with
  | Some f =>
      match upload b (fileNameFor b f) f with
      | Some uploadError => Some uploadError
      | None => insert b (record st (getPublicUrl b (fileNameFor b f)))
      end
  | None => insert b (record st (trim (imageUrl (formData st))))
  end.

End SellForm.

(** ** The edit form ([EditItemModal.tsx]) *)
Module EditForm.
Import JsString Client.

Record FormData := {
  title : jsstring;
  description : jsstring;
  category : jsstring;
  condition : jsstring;
  price : jsstring;
  imageUrl : jsstring;
  sellerName : jsstring;
  sellerPhone : jsstring;
}.

Record State := {
  saving : bool;
  formData : FormData;
}.

(** [from('products').update(payload).eq('id', id)]: the [error]. *)
Record Backend := {
  update : Schema.Payload → Schema.uuid → option Error;
}.

(** The [payload] literal (lines 44-53). *)
Definition payload (st : State) : Schema.Payload :=
  <["title" := Schema.VStr (title (formData st))]>
  (<["description" := Schema.VStr (description (formData st))]>
  (<["category" := Schema.VStr (category (formData st))]>
  (<["condition" := Schema.VStr (condition (formData st))]>
  (<["price" := Schema.VNum (Schema.Number (price (formData st)))]>
  (<["image_url" := Schema.VStr (imageUrl (formData st))]>
  (<["seller_name" := Schema.VStr (sellerName (formData st))]>
  (<["seller_phone" := Schema.VStr (sellerPhone (formData st))]> ∅))))))).

(** [handleSave] for the product being edited. *)
Definition handleSave (b : Backend) (product : Schema.Product) (st : State)
    : State * list effect :=
  let done := {| saving := false; formData := formData st |} in
  match update b (payload st) (Schema.id product) with
  | None => (done, [onSuccess; onClose])
  | Some error =>
      (done, [alert (if instanceof_Error error then message error
                     else lit "Failed to update listing")])
  end.

End EditForm.

(** ** The store behind the forms: the client calls, decided by the
    policies of [Policy.products] *)
Module Store.
Import JsString Client.

Definition policy_error : Error :=
  {| instanceof_Error := false;
     message := lit "new row violates row-level security policy" |}.

Definition constraint_error : Error :=
  {| instanceof_Error := false;
     message := lit "null value violates not-null constraint" |}.

Definition foreign_key_error : Error :=
  {| instanceof_Error := false;
     message := lit "insert on table violates foreign key constraint" |}.

(** [insert] by [c] into a table under the policies of [t]: the stored row,
    or the error.  [accounts] are the ids of [auth.users], which a non-null
    [owner_id] must reference ([references auth.users(id)]). *)
Definition insert_row (t : Policy.table) (c : Policy.caller)
    (accounts : gset (list N))
    (server_id : Schema.uuid) (server_now : jsstring) (p : Schema.Payload)
    : Error + Schema.Product :=
  match Schema.candidate_row server_id server_now p with
  | None => inl constraint_error
  | Some row =>
      if Policy.is_permitted (Policy.insert_verdict t c row) then
        match Schema.owner_id row with
        | Some owner =>
            if bool_decide (owner ∈ accounts) then inr row
            else inl foreign_key_error
        | None => inr row
        end
      else inl policy_error
  end.

(** The services as the sell form reaches them when [c] is the caller: no
    upload fails, and the insert is decided by the policies of [t]. *)
Definition backend (t : Policy.table) (c : Policy.caller)
    (accounts : gset (list N))
    (server_id : Schema.uuid) (server_now : jsstring) : SellForm.Backend :=
  {| SellForm.stamp := lit "1771000000000-k3x9";
     SellForm.toLowerCase := λ s, s;
     SellForm.upload := λ _ _, None;
     SellForm.getPublicUrl := λ fileName, lit "https://cdn/" ++ fileName;
     SellForm.insert := λ p,
       match insert_row t c accounts server_id server_now p with
       | inl e => Some e
       | inr _ => None
       end |}.

(** A store that refuses every insert. *)
Definition refusing : SellForm.Backend :=
  {| SellForm.stamp := lit "1771000000000-k3x9";
     SellForm.toLowerCase := λ s, s;
     SellForm.upload := λ _ _, None;
     SellForm.getPublicUrl := λ fileName, lit "https://cdn/" ++ fileName;
     SellForm.insert := λ _, Some policy_error |}.

(** The sell form on its last step, filled in. *)
Definition filled_form : SellForm.State :=
  {| SellForm.step := 3; SellForm.loading := false;
     SellForm.imageFile := None; SellForm.countryCode := lit "+91";
     SellForm.formData :=
       {| SellForm.title := lit "Calculator";
          SellForm.description := lit "Casio FX-991EX";
          SellForm.category := lit "Electronics";
          SellForm.condition := lit "Used";
          SellForm.price := lit "1200";
          SellForm.imageUrl := [];
          SellForm.sellerName := lit "Rahul";
          SellForm.sellerPhone := lit "09876543210" |} |}.


(** The edit form after the owner retyped the phone number. *)
Definition edited_form : EditForm.State :=
  {| EditForm.saving := false;
     EditForm.formData :=
       {| EditForm.title := lit "Calculator";
          EditForm.description := lit "Casio FX-991EX";
          EditForm.category := lit "Electronics";
          EditForm.condition := lit "Used";
          EditForm.price := lit "1200";
          EditForm.imageUrl := [];
          EditForm.sellerName := lit "Rahul";
          EditForm.sellerPhone := lit "98765 43210" |} |}.

End Store.

(** ** The marketplace page ([App], in [lib/supabase.ts] from line 21) *)
Module App.
Import JsString.

(** [BANNER_PALETTES] (lines 52-59). *)
Definition BANNER_PALETTES : list (jsstring * jsstring) :=
  [(lit "#2b2f77", lit "#4f46e5"); (lit "#1d4d7a", lit "#0ea5e9");
   (lit "#3d2c8d", lit "#8b5cf6"); (lit "#2f4858", lit "#0f766e");
   (lit "#4f2b5f", lit "#db2777"); (lit "#3d3f44", lit "#6b7280")].

(** [x >>> 0]: the value as an unsigned 32-bit integer.  The operand
    [hash * 31 + charCode] stays below 2^53, so the double holds it
    exactly. *)
Definition to_uint32 (x : N) : N := x mod 2 ^ 32.

(** [hashString] (lines 61-67): the loop over the code units. *)
Definition hashString (value : jsstring) : N :=
  fold_left (λ hash c, to_uint32 (hash * 31 + c)) value 0.

(** [`${product.title}-${product.category}-${product.id}`] *)
Definition bannerSeed (p : Schema.Product) : jsstring :=
  Schema.title p ++ lit "-" ++ Schema.category p ++ lit "-" ++ Schema.id p.

(** [hashString(seed) % BANNER_PALETTES.length] *)
Definition paletteIndex (p : Schema.Product) : N :=
  hashString (bannerSeed p) mod N.of_nat (length BANNER_PALETTES).

(** [getBannerStyle] (lines 258-265): the [backgroundImage] of the style;
    [None] when [BANNER_PALETTES[paletteIndex]] is [undefined], where the
    destructuring throws. *)
Definition getBannerStyle (p : Schema.Product) : option jsstring :=
  match BANNER_PALETTES !! N.to_nat (paletteIndex p) with
  | Some (start, stop) =>
      Some (lit "linear-gradient(145deg, " ++ start ++ lit " 0%, " ++
            stop ++ lit " 100%)")
  | None => None
  end.

(** [s.includes(needle)]: [needle] occurs in [s] at some position. *)
Fixpoint includes (s needle : jsstring) : bool :=
  startsWith s needle ||
  match s with
  | [] => false
  | _ :: s' => includes s' needle
  end.

(** [list.slice(a, b)] for [0 <= a <= b]. *)
Definition slice {A} (a b : nat) (l : list A) : list A :=
  take (b - a) (drop a l).

Section Search.
(** [String.prototype.toLowerCase], a function of the runtime. *)
Variable toLowerCase : jsstring → jsstring.

(** The predicate both filters use: the lowered query occurs in the
    lowered title, description or category. *)
Definition matchesQuery (normalized : jsstring) (p : Schema.Product) : bool :=
  includes (toLowerCase (Schema.title p)) normalized
  || includes (toLowerCase (Schema.description p)) normalized
  || includes (toLowerCase (Schema.category p)) normalized.

(** [filterProducts] (lines 121-139): the list handed to
    [setFilteredProducts]. *)
Definition filterProducts (products : list Schema.Product)
    (selectedCategory searchQuery : jsstring) : list Schema.Product :=
  let filtered :=
    if negb (bool_decide (selectedCategory = lit "All")) then
      List.filter (λ p, bool_decide (Schema.category p = selectedCategory))
                  products
    else products in
  if truthy searchQuery then
    List.filter (matchesQuery (toLowerCase searchQuery)) filtered
  else filtered.

(** [searchSuggestions] (lines 157-168). *)
Definition searchSuggestions (products : list Schema.Product)
    (searchQuery : jsstring) : list Schema.Product :=
  let query := toLowerCase (trim searchQuery) in
  if negb (truthy query) then []
  else slice 0 6 (List.filter (matchesQuery query) products).

End Search.


(** The loop of [featuredRows] (lines 272-278) from index [i]; it runs at
    most once per element, which is the bound [fuel]. *)
Fixpoint rowsFrom (fuel i : nat) (l : list Schema.Product)
    : list (list Schema.Product) :=
  match fuel with
  | O => []
  | S fuel' =>
      if Nat.ltb i (length l) then slice i (i + 4) l :: rowsFrom fuel' (i + 4) l
      else []
  end.

Definition featuredRows (featured : list Schema.Product)
    : list (list Schema.Product) :=
  rowsFrom (length featured) 0 featured.

(** [brokenImageIds], an object used as a set of ids; [onError] adds the
    id of the product ([{ ...prev, [product.id]: true }]). *)
Definition markBroken (id : Schema.uuid) (brokenImageIds : gset (list N))
    : gset (list N) :=
  {[ id ]} ∪ brokenImageIds.

(** [resolveDisplayImage] (line 251). *)
Definition resolveDisplayImage (p : Schema.Product) : jsstring :=
  trim (if truthy (Schema.image_url p) then Schema.image_url p else []).

(** [hasRealImage] (lines 253-256). *)
Definition hasRealImage (brokenImageIds : gset (list N)) (p : Schema.Product)
    : bool :=
  let image := trim (if truthy (Schema.image_url p) then Schema.image_url p
                     else []) in
  truthy image && negb (startsWith image (lit "data:image/svg"))
  && negb (bool_decide (Schema.id p ∈ brokenImageIds)).

(** [seller_phone.replace(/[^0-9]/g, '')] *)
Definition phoneDigits (phone : jsstring) : jsstring :=
  List.filter (λ c, negb (negb (is_digit c))) phone.

Section Contact.
(** [encodeURIComponent] and the conversion of the price in the template
    literal, functions of the runtime. *)
Variable encodeURIComponent : jsstring → jsstring.
Variable numberToString : Schema.JsNum → jsstring.

(** The address [openWhatsApp] (lines 241-249) and [handleWhatsApp]
    ([ProductDetailModal.tsx], lines 13-21) open. *)
Definition whatsAppUrl (p : Schema.Product) : jsstring :=
  let message :=
    encodeURIComponent
      (lit "Hi! I'm interested in your " ++ Schema.title p ++
       lit " listed on UniSwap for " ++ [8377] ++
       numberToString (Schema.price p)) in
  lit "https://wa.me/" ++ phoneDigits (Schema.seller_phone p) ++
  lit "?text=" ++ message.

End Contact.

(** *** Theme (lines 77-80, 96-99) *)

Inductive ThemeMode := day | night.

Definition themeName (m : ThemeMode) : jsstring :=
  match m with day => lit "day" | night => lit "night" end.

(** The initializer of [themeMode]; [localStorage] maps keys to strings. *)
Definition initialTheme (localStorage : gmap string (list N)) : ThemeMode :=
  match localStorage !! "uniswap-theme" with
  | Some stored => if bool_decide (stored = lit "day") then day else night
  | None => night
  end.

(** [localStorage.setItem('uniswap-theme', themeMode)] of the effect. *)
Definition persistTheme (m : ThemeMode) (localStorage : gmap string (list N))
    : gmap string (list N) :=
  <["uniswap-theme" := themeName m]> localStorage.

(** *** Sign-in form ([handleAuth], lines 172-196) *)

Inductive AuthMode := login | signup.

Record AuthState := {
  authMode : AuthMode;
  authEmail : jsstring;
  authPassword : jsstring;
  authSubmitting : bool;
}.

(** The calls to the auth service and the notices, in order. *)
Inductive auth_effect :=
| signInWithPassword (email password : jsstring)
| signUp (email password : jsstring)
| auth_alert (text : jsstring).

(** The [error] each call of the auth service answers with, if any. *)
Record AuthService := {
  signInError : jsstring → jsstring → option Client.Error;
  signUpError : jsstring → jsstring → option Client.Error;
}.

Definition auth_failure (e : Client.Error) : jsstring :=
  if Client.instanceof_Error e then Client.message e
  else lit "Authentication failed.".

Definition handleAuth (svc : AuthService) (st : AuthState)
    : AuthState * list auth_effect :=
  if negb (truthy (authEmail st)) || negb (truthy (authPassword st)) then
    (st, [])
  else
    let settled mode :=
      {| authMode := mode; authEmail := authEmail st;
         authPassword := authPassword st; authSubmitting := false |} in
    match authMode st with
    | login =>
        let call := signInWithPassword (authEmail st) (authPassword st) in
        match signInError svc (authEmail st) (authPassword st) with
        | Some error => (settled login, [call; auth_alert (auth_failure error)])
        | None => (settled login, [call])
        end
    | signup =>
        let call := signUp (authEmail st) (authPassword st) in
        match signUpError svc (authEmail st) (authPassword st) with
        | Some error => (settled signup, [call; auth_alert (auth_failure error)])
        | None =>
            (settled login,
             [call;
              auth_alert (lit "Account created. Verify email first if confirmation is enabled.")])
        end
    end.

Definition is_auth_call (e : auth_effect) : bool :=
  match e with auth_alert _ => false | _ => true end.

(** The value [hashString] computes before reduction to 32 bits: the code
    units as the coefficients of a polynomial in 31, the first one
    leading. *)
Fixpoint hashPolynomial (s : jsstring) : N :=
  match s with
  | [] => 0
  | c :: s' => c * 31 ^ N.of_nat (length s') + hashPolynomial s'
  end.

(** [toLowerCase] on ASCII letters, to evaluate the search on. *)
Definition ascii_lower (s : jsstring) : jsstring :=
  List.map (λ c, if (65 <=? c) && (c <=? 90) then c + 32 else c) s.

End App.

(** ** Editing a listing: the form and the store together *)
Module EditFlow.
Import JsString Client.

(** The effect that fills the form when a product is handed to the modal
    ([EditItemModal.tsx], lines 25-37); [String(product.price)] is the
    runtime's. *)
Definition loadProduct (numberToString : Schema.JsNum → jsstring)
    (product : Schema.Product) (st : EditForm.State) : EditForm.State :=
  {| EditForm.saving := EditForm.saving st;
     EditForm.formData :=
       {| EditForm.title := Schema.title product;
          EditForm.description := Schema.description product;
          EditForm.category := Schema.category product;
          EditForm.condition := Schema.condition product;
          EditForm.price := numberToString (Schema.price product);
          EditForm.imageUrl := Schema.image_url product;
          EditForm.sellerName := Schema.seller_name product;
          EditForm.sellerPhone := Schema.seller_phone product |} |}.

(** [UPDATE products SET ... WHERE id = ...] by [c] on the stored rows:
    a row the policies hide from the command is skipped without error, a
    new row that fails a check aborts the statement. *)
Fixpoint update_where_id (t : Policy.table) (c : Policy.caller)
    (p : Schema.Payload) (id : Schema.uuid) (rows : list Schema.Product)
    : Error + list Schema.Product :=
  match rows with
  | [] => inr []
  | row :: rest =>
      let new := Schema.updated_row row p in
      let row' :=
        if negb (bool_decide (Schema.id row = id)) then inr row
        else match Policy.update_verdict t c row new with
             | Policy.permitted => inr new
             | Policy.no_row => inr row
             | Policy.violation => inl Store.policy_error
             end in
      match row', update_where_id t c p id rest with
      | inr r, inr rest' => inr (r :: rest')
      | inl e, _ | _, inl e => inl e
      end
  end.

(** The store as the edit form reaches it. *)
Definition backend (t : Policy.table) (c : Policy.caller)
    (rows : list Schema.Product) : EditForm.Backend :=
  {| EditForm.update := λ p id,
       match update_where_id t c p id rows with
       | inl e => Some e
       | inr _ => None
       end |}.

End EditFlow.

(** ** Runs of the sell form *)
Module SellFlow.
Import JsString SellForm.

(** The state after a sequence of events. *)
Definition after (events : list event) (st : State) : State :=
  fold_left (λ st ev, (handle ev st).1) events st.

(** At most one of the two image variants is present. *)
Definition one_image_source (st : State) : Prop :=
  imageFile st ≠ None → imageUrl (formData st) = [].

(** The steps behind the current one had their required fields filled. *)
Definition steps_passed (st : State) : Prop :=
  ((2 ≤ step st)%nat → canProceedStep1 st = true) ∧
  ((3 ≤ step st)%nat → canProceedStep2 st = true).

(** Filling the form in and walking to the last step. *)
Definition fill_in : list event :=
  [ChangeTitle (lit "Calculator"); ChangeDescription (lit "Casio FX-991EX");
   ClickNext; ChangePrice (lit "1200"); ClickNext;
   ChangeSellerName (lit "Rahul"); ChangeSellerPhone (lit "09876543210")].

(** The last step with a phone number of two spaces. *)
Definition blank_phone_form : State :=
  {| step := 3; loading := false; imageFile := None;
     countryCode := lit "+91";
     formData :=
       {| title := lit "Calculator"; description := lit "Casio FX-991EX";
          category := lit "Electronics"; condition := lit "Used";
          price := lit "1200"; imageUrl := [];
          sellerName := lit "Rahul"; sellerPhone := lit "  " |} |}.

End SellFlow.

(** ** The second migration as one step *)
Module Rerun.
Import Policy.

(** The policies of a table without those the second migration drops. *)
Definition kept (l : list policy) : list policy :=
  List.filter
    (λ p, negb (String.eqb (polname p) "Authenticated can update products"))
    (List.filter
       (λ p, negb (String.eqb (polname p) "Authenticated can create products"))
       (List.filter
          (λ p, negb (String.eqb (polname p) "Authenticated can view products"))
          l)).

(** The policies the second migration creates. *)
Definition owner_policies : list policy :=
  [{| polname := "Authenticated can view products";
      polcmd := FOR SELECT; polroles := TO authenticated;
      polqual := Some sql_true; polwithcheck := None |};
   {| polname := "Authenticated can create products";
      polcmd := FOR INSERT; polroles := TO authenticated;
      polqual := None; polwithcheck := Some owner_id_is_auth_uid |};
   {| polname := "Authenticated can update products";
      polcmd := FOR UPDATE; polroles := TO authenticated;
      polqual := Some owner_id_is_auth_uid;
      polwithcheck := Some owner_id_is_auth_uid |}]%string.

(** A table after the second migration. *)
Definition migrated (t : table) : table :=
  {| columns := if has_column "owner_id" t then columns t
                else columns t ++ [("owner_id"%string, sql_uuid)];
     row_security := true;
     policies := kept (policies t) ++ owner_policies |}.

(** The table has no [owner_id] column yet, or one of type [uuid]. *)
Definition accepts_owner_column (t : table) : bool :=
  negb (has_column "owner_id" t) || owner_id_comparable t.

End Rerun.

(** * Properties *)

(** ** String primitives *)
Module JsStringFacts.
Import JsString.

Lemma digit_range c : is_digit c = true ↔ 48 ≤ c ∧ c ≤ 57.
Proof.
  unfold is_digit. rewrite andb_true_iff, !N.leb_le. tauto.
Qed.

Lemma digit_not_space c : is_digit c = true → is_white_space c = false.
Proof.
  rewrite digit_range. intros [Hlo Hhi]. unfold is_white_space. simpl.
  repeat match goal with
  | |- context [c =? ?k] => rewrite (proj2 (N.eqb_neq c k)) by lia
  end.
  simpl. apply andb_false_iff. left. apply N.leb_gt. lia.
Qed.

Lemma plus_not_space : is_white_space plus_sign = false.
Proof. reflexivity. Qed.

Lemma plus_not_digit : is_digit plus_sign = false.
Proof. reflexivity. Qed.

Section drop_while.
Variable p : N → bool.

Lemma drop_while_split s :
  ∃ l, s = l ++ drop_while p s ∧ Forall (λ c, p c = true) l.
Proof.
  induction s as [|c s [l [Hs Hl]]]; simpl.
  - exists []. split; [done | constructor].
  - destruct (p c) eqn:Hc.
    + exists (c :: l). split; [simpl; congruence | by constructor].
    + exists []. split; [done | constructor].
Qed.

Lemma drop_while_head s c : head (drop_while p s) = Some c → p c = false.
Proof.
  induction s as [|a s IH]; simpl; [done |].
  destruct (p a) eqn:Ha; [done |]. simpl. congruence.
Qed.

Lemma drop_while_all l s :
  Forall (λ c, p c = true) l → drop_while p (l ++ s) = drop_while p s.
Proof.
  induction 1 as [|c l Hc _ IH]; simpl; [done |]. by rewrite Hc.
Qed.

Lemma drop_while_stop s :
  (∀ c, head s = Some c → p c = false) → drop_while p s = s.
Proof.
  destruct s as [|a s]; simpl; [done |].
  intros H. by rewrite (H a).
Qed.
End drop_while.

Lemma trim_nil : trim [] = [].
Proof. reflexivity. Qed.

(** A string that neither starts nor ends with white space is its own
    trimmed value. *)
Lemma trim_stop s :
  (∀ c, head s = Some c → is_white_space c = false) →
  (∀ c, last s = Some c → is_white_space c = false) →
  trim s = s.
Proof.
  intros Hh Hl. unfold trim, trimStart, trimEnd.
  rewrite (drop_while_stop _ s Hh).
  rewrite drop_while_stop; [apply reverse_involutive |].
  intros c. rewrite head_reverse. apply Hl.
Qed.

Lemma trim_spaces_around l t r :
  Forall (λ c, is_white_space c = true) l →
  Forall (λ c, is_white_space c = true) r →
  (∀ c, head t = Some c → is_white_space c = false) →
  (∀ c, last t = Some c → is_white_space c = false) →
  trim (l ++ t ++ r) = t.
Proof.
  intros Hl Hr Hh Hla. unfold trim, trimStart, trimEnd.
  rewrite drop_while_all by done.
  destruct t as [|a t].
  - simpl. rewrite <- (app_nil_r r) at 1. rewrite drop_while_all by done.
    reflexivity.
  - rewrite (drop_while_stop _ ((a :: t) ++ r)).
    2:{ simpl. intros c [= <-]. by apply Hh. }
    rewrite reverse_app, drop_while_all by (by apply Forall_reverse).
    rewrite drop_while_stop; [apply reverse_involutive |].
    intros c. rewrite head_reverse. apply Hla.
Qed.

Lemma startsWith_prefix s p : startsWith s p = true ↔ p `prefix_of` s.
Proof.
  revert s. induction p as [|a p IH]; intros s; simpl.
  - split; [intros _; apply prefix_nil | done].
  - destruct s as [|b s].
    + split; [done | intros H; by apply prefix_nil_not in H].
    + rewrite andb_true_iff, N.eqb_eq, IH. split.
      * intros [-> H]. by apply prefix_cons.
      * intros H. split; [by apply prefix_cons_inv_1 in H
                         | by apply prefix_cons_inv_2 in H].
Qed.

Lemma remove_non_digits_digits s :
  Forall (λ c, is_digit c = true) (remove_non_digits s).
Proof.
  induction s as [|c s IH]; simpl; [constructor |].
  unfold is_non_digit. rewrite negb_involutive.
  destruct (is_digit c) eqn:Hc; [by constructor | done].
Qed.

Lemma remove_non_digits_id s :
  Forall (λ c, is_digit c = true) s → remove_non_digits s = s.
Proof.
  induction 1 as [|c s Hc _ IH]; simpl; [done |].
  unfold is_non_digit. rewrite Hc. simpl. by f_equal.
Qed.

Lemma remove_leading_zeros_digits s :
  Forall (λ c, is_digit c = true) s →
  Forall (λ c, is_digit c = true) (remove_leading_zeros s).
Proof.
  unfold remove_leading_zeros.
  induction 1 as [|c s Hc Hs IH]; cbn [drop_while]; [constructor |].
  destruct (zero_digit =? c); [exact IH | by constructor].
Qed.

End JsStringFacts.

(** ** Phone normalization *)
Module PhoneFacts.
Import JsString Phone JsStringFacts.

(** The worked examples of the specification. *)
Example normalize_plus_input :
  normalizePhone (lit "+91") (lit "+91 98765-43210") = lit "+919876543210".
Proof. reflexivity. Qed.

Example normalize_code_present :
  normalizePhone (lit "+91") (lit "919876543210") = lit "+919876543210".
Proof. reflexivity. Qed.

Example normalize_leading_zero :
  normalizePhone (lit "+91") (lit "09876543210") = lit "+919876543210".
Proof. reflexivity. Qed.

Example normalize_blank :
  normalizePhone (lit "+91") (lit "   ") = [].
Proof. reflexivity. Qed.

Lemma dial_code_inv c :
  is_dial_code c = true →
  ∃ ds, c = plus_sign :: ds ∧ Forall (λ d, is_digit d = true) ds.
Proof.
  destruct c as [|p ds]; simpl; [done |].
  rewrite andb_true_iff, N.eqb_eq, forallb_forall. intros [-> H].
  exists ds. split; [done |]. by apply List.Forall_forall.
Qed.

Lemma countryCodes_dial_codes :
  Forall (λ c, is_dial_code c = true) countryCodes.
Proof. repeat constructor. Qed.

(** *** The declarative notions agree with the string methods *)

Lemma trim_Trimmed s : Trimmed s (trim s).
Proof.
  unfold Trimmed, trim, trimStart, trimEnd.
  destruct (drop_while_split is_white_space s) as [l [Hs Hl]].
  set (u := drop_while is_white_space s) in *.
  destruct (drop_while_split is_white_space (reverse u)) as [l' [Hu Hl']].
  set (v := drop_while is_white_space (reverse u)) in *.
  assert (Hu' : u = reverse v ++ reverse l').
  { rewrite <- reverse_app, <- Hu. by rewrite reverse_involutive. }
  exists l, (reverse l'). repeat split.
  - by rewrite <- Hu'.
  - done.
  - by apply Forall_reverse.
  - intros c. rewrite head_reverse. intros Hc.
    apply (drop_while_head is_white_space s). fold u.
    rewrite <- last_reverse, Hu, last_app, Hc. done.
  - intros c. rewrite last_reverse. apply drop_while_head.
Qed.

Lemma Trimmed_trim s t : Trimmed s t → trim s = t.
Proof.
  intros (l & r & -> & Hl & Hr & Hh & Hla). by apply trim_spaces_around.
Qed.

Lemma DigitsOf_remove_non_digits t d :
  DigitsOf t d ↔ d = remove_non_digits t.
Proof.
  split.
  - induction 1 as [|c t d Hc _ IH|c t d Hc _ IH]; simpl;
      unfold is_non_digit; rewrite ?Hc; simpl; congruence.
  - intros ->. induction t as [|c t IH]; simpl; [constructor |].
    unfold is_non_digit. destruct (is_digit c) eqn:Hc; simpl.
    + by apply DigitsOf_keep.
    + by apply DigitsOf_skip.
Qed.

Lemma zeros_replicate l :
  Forall (λ c, (zero_digit =? c) = true) l ↔
  l = replicate (length l) zero_digit.
Proof.
  split.
  - induction 1 as [|c l Hc _ IH]; simpl; [done |].
    apply N.eqb_eq in Hc. congruence.
  - intros ->. induction (length l); simpl; by constructor.
Qed.

Lemma ZerosStripped_remove_leading_zeros d d' :
  ZerosStripped d d' ↔ d' = remove_leading_zeros d.
Proof.
  unfold ZerosStripped, remove_leading_zeros. split.
  - intros (k & -> & Hh). rewrite drop_while_all.
    + symmetry. apply drop_while_stop. intros c Hc.
      apply N.eqb_neq. congruence.
    + apply zeros_replicate. by rewrite length_replicate.
  - intros ->.
    destruct (drop_while_split (N.eqb zero_digit) d) as [l [Hd Hl]].
    exists (length l). split.
    + apply zeros_replicate in Hl. by rewrite <- Hl.
    + intros Hh. apply drop_while_head in Hh. by rewrite N.eqb_refl in Hh.
Qed.

(** *** Shape of the result *)

Lemma normalizePhone_nil c : normalizePhone c [] = [].
Proof. reflexivity. Qed.

(** With a dial code the result is empty or [+] followed by digits. *)
Lemma normalizePhone_shape c s :
  is_dial_code c = true →
  normalizePhone c s = [] ∨
  ∃ ds, normalizePhone c s = plus_sign :: ds ∧
        Forall (λ d, is_digit d = true) ds.
Proof.
  intros (cd & -> & Hcd)%dial_code_inv. unfold normalizePhone.
  destruct (trim s) as [|a t] eqn:Ht; cbn [truthy negb]; [by left |].
  right.
  destruct (startsWith (a :: t) [plus_sign]).
  { eexists. split; [done | apply remove_non_digits_digits]. }
  set (digits := remove_leading_zeros (remove_non_digits (a :: t))).
  assert (Hd : Forall (λ d, is_digit d = true) digits).
  { apply remove_leading_zeros_digits, remove_non_digits_digits. }
  destruct (startsWith digits _).
  - by exists digits.
  - exists (cd ++ digits). split; [done | by apply Forall_app].
Qed.

(** A string of that shape is left as it is, whatever the country code. *)
Lemma normalizePhone_fixed c ds :
  Forall (λ d, is_digit d = true) ds →
  normalizePhone c (plus_sign :: ds) = plus_sign :: ds.
Proof.
  intros Hds. unfold normalizePhone.
  rewrite trim_stop.
  - cbn [truthy negb startsWith]. rewrite N.eqb_refl. cbn [andb].
    f_equal. change (remove_non_digits (plus_sign :: ds))
      with (remove_non_digits ds).
    by apply remove_non_digits_id.
  - intros c' [= <-]. apply plus_not_space.
  - intros c' Hc'%last_Some_elem_of.
    apply elem_of_cons in Hc' as [-> | Hin]; [apply plus_not_space |].
    apply digit_not_space. by eapply (proj1 (Forall_forall _ _)) in Hds.
Qed.

(** Normalizing with one dial code and then with another (the code can be
    changed between blur and submit) keeps the first result. *)
Lemma normalizePhone_twice c1 c2 s :
  is_dial_code c1 = true →
  normalizePhone c2 (normalizePhone c1 s) = normalizePhone c1 s.
Proof.
  intros H. destruct (normalizePhone_shape c1 s H) as [-> | (ds & -> & Hds)].
  - apply normalizePhone_nil.
  - by apply normalizePhone_fixed.
Qed.

(** C6. For every country code (a string that begins with [+]) and every
    raw phone input, the result of [normalizePhone] is exactly the result
    the five-step algorithm of the specification prescribes: [r] is
    prescribed for the input if and only if [r] is what the function
    returns. *)
Theorem normalizePhone_follows_spec countryCode rawPhone r :
  startsWith countryCode [plus_sign] = true →
  NormalizeSpec countryCode rawPhone r ↔ r = normalizePhone countryCode rawPhone.
Proof.
  intros Hcode.
  destruct countryCode as [|p cd]; [done |].
  cbn [startsWith] in Hcode. rewrite andb_true_r in Hcode.
  apply N.eqb_eq in Hcode. subst p.
  unfold normalizePhone. cbn [remove_first]. rewrite N.eqb_refl.
  split.
  - intros Hspec.
    destruct Hspec as [Ht | t d Ht Hd | t c d d' cd' Ht Hc Hd Hz Hcd Hpre
                      | t c d d' cd' Ht Hc Hd Hz Hcd Hpre];
      apply Trimmed_trim in Ht; rewrite Ht; cbn [truthy negb startsWith].
    + done.
    + rewrite N.eqb_refl. cbn [andb].
      apply DigitsOf_remove_non_digits in Hd. by subst d.
    + rewrite (proj2 (N.eqb_neq plus_sign c)) by congruence. cbn [andb].
      apply DigitsOf_remove_non_digits in Hd.
      apply ZerosStripped_remove_leading_zeros in Hz. subst d d'.
      injection Hcd as <-.
      by rewrite (proj2 (startsWith_prefix _ _) Hpre).
    + rewrite (proj2 (N.eqb_neq plus_sign c)) by congruence. cbn [andb].
      apply DigitsOf_remove_non_digits in Hd.
      apply ZerosStripped_remove_leading_zeros in Hz. subst d d'.
      injection Hcd as <-.
      destruct (startsWith _ cd) eqn:Hsw; [| done].
      by apply startsWith_prefix in Hsw.
  - intros ->. pose proof (trim_Trimmed rawPhone) as Ht.
    destruct (trim rawPhone) as [|c t]; cbn [truthy negb startsWith].
    + by apply Step1_empty.
    + destruct (plus_sign =? c) eqn:Hc; cbn [andb].
      * apply N.eqb_eq in Hc. subst c.
        eapply Step2_plus; [done |]. by apply DigitsOf_remove_non_digits.
      * apply N.eqb_neq in Hc.
        destruct (startsWith _ cd) eqn:Hsw.
        -- eapply Step4_has_code; [done | congruence | | | done |].
           ++ by apply DigitsOf_remove_non_digits.
           ++ by apply ZerosStripped_remove_leading_zeros.
           ++ by apply startsWith_prefix.
        -- eapply Step5_add_code; [done | congruence | | | done |].
           ++ by apply DigitsOf_remove_non_digits.
           ++ by apply ZerosStripped_remove_leading_zeros.
           ++ intros Hpre%startsWith_prefix. congruence.
Qed.

Lemma normalizePhone_follows_spec_witness :
  startsWith (lit "+91") [plus_sign] = true ∧
  NormalizeSpec (lit "+91") (lit " 098765 43210 ") (lit "+919876543210").
Proof.
  split; [reflexivity |].
  apply (normalizePhone_follows_spec (lit "+91") (lit " 098765 43210 ")).
  - reflexivity.
  - reflexivity.
Defined.

(** The country code must be a dial code for the result to be stable: a
    code written without [+] is prepended again. *)
Remark normalizePhone_code_without_plus :
  normalizePhone (lit "91") (lit "5") = lit "915" ∧
  normalizePhone (lit "91") (lit "915") = lit "+915".
Proof. split; reflexivity. Qed.

(** C10. Phone normalization is idempotent: for every dial code [c] ([+]
    followed by digits, as every entry of [countryCodes] is) and every
    input [s], normalizing the normalized value again returns it
    unchanged, so blur followed by submit never duplicates the prefix. *)
Theorem normalizePhone_idempotent c s :
  is_dial_code c = true →
  normalizePhone c (normalizePhone c s) = normalizePhone c s.
Proof. apply normalizePhone_twice. Qed.

Lemma normalizePhone_idempotent_witness :
  is_dial_code (lit "+91") = true ∧
  normalizePhone (lit "+91") (normalizePhone (lit "+91") (lit "09876543210"))
  = normalizePhone (lit "+91") (lit "09876543210").
Proof.
  split; [reflexivity |].
  apply (normalizePhone_idempotent (lit "+91") (lit "09876543210")).
  reflexivity.
Defined.

End PhoneFacts.

(** ** Row-level security *)
Module PolicyFacts.
Import JsString Schema Policy.

(** Both migrations run without error; the catalog then holds five
    policies: the two of the first migration, which the second one does
    not drop, and the three of the second. *)
Lemma migrations_run :
  run migrations None = Some (Some products).
Proof. reflexivity. Qed.

Lemma products_row_security : row_security products = true.
Proof. reflexivity. Qed.

Lemma products_policy_names :
  List.map polname (policies products) =
  ["Anyone can view products"; "Anyone can create products";
   "Authenticated can view products"; "Authenticated can create products";
   "Authenticated can update products"]%string.
Proof. reflexivity. Qed.

Lemma passes_owner c row : passes owner_id_is_auth_uid c row = owned_by c row.
Proof.
  unfold passes, owned_by, eval, sql_eq.
  destruct (owner_id row), (auth_uid c); try done. by destruct (bool_decide _).
Qed.

Lemma owned_by_signed_in u row :
  owned_by (signed_in u) row = true ↔ owner_id row = Some u.
Proof.
  unfold owned_by. simpl. destruct (owner_id row) as [o|]; [| done].
  rewrite bool_decide_eq_true. split; congruence.
Qed.

Lemma owned_by_null_owner c row : owner_id row = None → owned_by c row = false.
Proof. intros H. unfold owned_by. rewrite H. by destruct (auth_uid c). Qed.

(** *** The decisions of the catalog in closed form *)

Lemma select_using c row : using_ok products SELECT c row = true.
Proof. by destruct c. Qed.

Lemma insert_check c row : check_ok products INSERT c row = true.
Proof. by destruct c. Qed.

Lemma update_using c row : using_ok products UPDATE c row = owned_by c row.
Proof.
  destruct c as [|u]; [done |].
  change (using_ok products UPDATE (signed_in u) row)
    with (passes owner_id_is_auth_uid (signed_in u) row || false).
  by rewrite orb_false_r, passes_owner.
Qed.

Lemma update_check c row : check_ok products UPDATE c row = owned_by c row.
Proof.
  destruct c as [|u]; [done |].
  change (check_ok products UPDATE (signed_in u) row)
    with (passes owner_id_is_auth_uid (signed_in u) row || false).
  by rewrite orb_false_r, passes_owner.
Qed.

Lemma delete_using c row : using_ok products DELETE c row = false.
Proof. by destruct c. Qed.

Lemma update_permitted c old new :
  is_permitted (update_verdict products c old new)
  = owned_by c old && owned_by c new.
Proof.
  unfold update_verdict.
  rewrite !select_using, update_using, update_check, andb_true_r. simpl.
  by destruct (owned_by c old), (owned_by c new).
Qed.

(** *** The second migration on its own

    What its header announces: insert restricted to the signed-in owner. *)
Lemma owner_based_insert u row :
  is_permitted (insert_verdict owner_based_policies (signed_in u) row) = true
  ↔ owner_id row = Some u.
Proof.
  unfold insert_verdict.
  change (check_ok owner_based_policies INSERT (signed_in u) row)
    with (passes owner_id_is_auth_uid (signed_in u) row || false).
  rewrite orb_false_r, passes_owner, <- owned_by_signed_in.
  by destruct (owned_by _ _).
Qed.

Lemma owner_based_insert_anon row :
  insert_verdict owner_based_policies unauthenticated row = violation.
Proof. reflexivity. Qed.

(** *** With the policies in force *)

(** Every insert passes, whoever the caller and whatever the owner field:
    ["Anyone can create products"] applies to every role and checks
    [true]. *)
Lemma insert_always_permitted c row :
  insert_verdict products c row = permitted.
Proof. unfold insert_verdict. by rewrite insert_check. Qed.

(** C1 (the code departs from the claim). An authenticated caller inserts
    a row whose owner is another account, and a row whose owner is null:
    both are permitted by the policies in force after the migrations. *)
Theorem insert_with_foreign_owner_permitted :
  insert_verdict products (signed_in (lit "alice"))
                 (sample_row (Some (lit "bob"))) = permitted ∧
  insert_verdict products (signed_in (lit "alice")) (sample_row None)
  = permitted.
Proof. split; apply insert_always_permitted. Qed.

(** C3. For every authenticated caller and every existing row, an update
    is permitted if and only if the owner field of the existing row and
    the owner field of the updated row both equal the caller's identity. *)
Theorem update_permitted_iff_owner u old new :
  is_permitted (update_verdict products (signed_in u) old new) = true
  ↔ owner_id old = Some u ∧ owner_id new = Some u.
Proof.
  rewrite update_permitted, andb_true_iff, !owned_by_signed_in. done.
Qed.

(** In particular: a non-owner's update affects no row, an owner's update
    that hands the row to someone else is a policy violation, and an
    owner's update that keeps the owner goes through. *)
Lemma update_by_non_owner u old new :
  owner_id old ≠ Some u →
  update_verdict products (signed_in u) old new = no_row.
Proof.
  intros H. unfold update_verdict.
  rewrite select_using, update_using.
  destruct (owned_by (signed_in u) old) eqn:E; [| done].
  by apply owned_by_signed_in in E.
Qed.

Lemma update_changing_owner u old new :
  owner_id old = Some u → owner_id new ≠ Some u →
  update_verdict products (signed_in u) old new = violation.
Proof.
  intros Ho Hn. unfold update_verdict.
  rewrite !select_using, update_using, update_check.
  rewrite (proj2 (owned_by_signed_in u old) Ho). simpl.
  destruct (owned_by (signed_in u) new) eqn:E; [| done].
  by apply owned_by_signed_in in E.
Qed.

Lemma update_by_owner u old new :
  owner_id old = Some u → owner_id new = Some u →
  update_verdict products (signed_in u) old new = permitted.
Proof.
  intros Ho Hn. unfold update_verdict.
  rewrite !select_using, update_using, update_check.
  by rewrite (proj2 (owned_by_signed_in u old) Ho),
             (proj2 (owned_by_signed_in u new) Hn).
Qed.

(** C4. A row whose [owner_id] is null is never updatable: whoever the
    caller, authenticated or not, and whatever the new row, the update is
    not permitted. *)
Theorem null_owner_never_updatable c old new :
  owner_id old = None →
  is_permitted (update_verdict products c old new) = false.
Proof.
  intros H. rewrite update_permitted.
  by rewrite (owned_by_null_owner c old H).
Qed.

Lemma null_owner_never_updatable_witness :
  owner_id (sample_row None) = None ∧
  is_permitted (update_verdict products (signed_in (lit "alice"))
                  (sample_row None) (sample_row (Some (lit "alice"))))
  = false.
Proof.
  split; [reflexivity |].
  apply (null_owner_never_updatable (signed_in (lit "alice"))
           (sample_row None) (sample_row (Some (lit "alice")))).
  reflexivity.
Defined.

(** With the policies of the second migration alone, a caller without a
    session is refused every operation: all three policies are [TO
    authenticated]. *)
Lemma owner_based_unauthenticated_rejected row new :
  is_permitted (select_verdict owner_based_policies unauthenticated row)
  = false ∧
  is_permitted (insert_verdict owner_based_policies unauthenticated row)
  = false ∧
  is_permitted (update_verdict owner_based_policies unauthenticated row new)
  = false ∧
  is_permitted (delete_verdict owner_based_policies unauthenticated row)
  = false.
Proof. repeat split. Qed.

(** With the policies in force, every row is shown to a caller without a
    session and every insert of such a caller passes; updates and deletes
    are refused. *)
Lemma unauthenticated_access row new :
  is_permitted (select_verdict products unauthenticated row) = true ∧
  is_permitted (insert_verdict products unauthenticated row) = true ∧
  is_permitted (update_verdict products unauthenticated row new) = false ∧
  is_permitted (delete_verdict products unauthenticated row) = false.
Proof.
  split; [| split; [| split]].
  - unfold select_verdict. by rewrite select_using.
  - by rewrite insert_always_permitted.
  - by rewrite update_permitted.
  - unfold delete_verdict. by rewrite delete_using, andb_false_r.
Qed.

(** C5 (the code departs from the claim). A caller without a session
    selects a listing and inserts one: both are permitted by the policies
    in force after the migrations, through the two policies of the first
    migration, which are for every role and which the second migration
    does not drop. *)
Theorem unauthenticated_select_and_insert_permitted :
  select_verdict products unauthenticated (sample_row (Some (lit "bob")))
  = permitted ∧
  insert_verdict products unauthenticated (sample_row None) = permitted.
Proof. split; reflexivity. Qed.

(** Delete is denied to every caller: no policy is for DELETE. *)
Lemma delete_never_permitted c row :
  delete_verdict products c row = no_row.
Proof. unfold delete_verdict. by rewrite delete_using, andb_false_r. Qed.

End PolicyFacts.

(** ** The sell form *)
Module SellFormFacts.
Import JsString Phone Client SellForm.

(** *** The record handed to the store *)

Lemma record_owner_id st url : record st url !! "owner_id" = None.
Proof.
  unfold record. rewrite !lookup_insert_ne by done. apply lookup_empty.
Qed.

Lemma record_seller_phone st url :
  record st url !! "seller_phone"
  = Some (Schema.VStr (normalizePhone (countryCode st)
                                      (sellerPhone (formData st)))).
Proof.
  unfold record. rewrite !lookup_insert_ne by done. apply lookup_insert_eq.
Qed.

(** The row the store builds from the record: the owner column is NULL. *)
Lemma record_candidate_row st url sid now :
  Schema.candidate_row sid now (record st url) =
  Some {| Schema.id := sid;
          Schema.title := title (formData st);
          Schema.description := description (formData st);
          Schema.price := Schema.parseFloat (price (formData st));
          Schema.condition := condition (formData st);
          Schema.category := category (formData st);
          Schema.image_url := if truthy url then url else [];
          Schema.seller_name := sellerName (formData st);
          Schema.seller_phone :=
            normalizePhone (countryCode st) (sellerPhone (formData st));
          Schema.owner_id := None;
          Schema.created_at := now |}.
Proof. reflexivity. Qed.

(** The store accepts the record, through the policy of the first
    migration, and stores a row without owner. *)
Lemma sell_form_insert_row st url c accounts sid now :
  ∃ row, Schema.candidate_row sid now (record st url) = Some row ∧
         Store.insert_row Policy.products c accounts sid now (record st url)
         = inr row ∧
         Schema.owner_id row = None.
Proof.
  eexists. split; [apply record_candidate_row |].
  unfold Store.insert_row. rewrite record_candidate_row.
  by rewrite PolicyFacts.insert_always_permitted.
Qed.

(** C2 (the code departs from the claim). The record built by
    [handleSubmit] has no [owner_id] key, whatever the form holds and
    whoever is signed in; the store accepts it and the stored row's owner
    is NULL, not the creating account. *)
Theorem sell_form_record_has_no_owner st url u accounts sid now :
  record st url !! "owner_id" = None ∧
  ∃ row, Store.insert_row Policy.products (Policy.signed_in u) accounts
                          sid now (record st url) = inr row ∧
         Schema.owner_id row = None ∧ Schema.owner_id row ≠ Some u.
Proof.
  split; [apply record_owner_id |].
  destruct (sell_form_insert_row st url (Policy.signed_in u) accounts sid now)
    as (row & _ & Hins & Hown).
  exists row. rewrite Hown. done.
Qed.

(** Under the owner-based insert policy alone, the store would refuse
    every record the form builds. *)
Lemma sell_form_record_refused_by_owner_policy st url u accounts sid now :
  Store.insert_row Policy.owner_based_policies (Policy.signed_in u) accounts
                   sid now (record st url) = inl Store.policy_error.
Proof.
  unfold Store.insert_row. rewrite record_candidate_row. reflexivity.
Qed.

(** A listing created through the form can never be edited afterwards. *)
Lemma sell_form_listing_not_updatable st url u accounts sid now row c new :
  Store.insert_row Policy.products (Policy.signed_in u) accounts sid now
                   (record st url) = inr row →
  Policy.is_permitted (Policy.update_verdict Policy.products c row new)
  = false.
Proof.
  intros H.
  destruct (sell_form_insert_row st url (Policy.signed_in u) accounts sid now)
    as (row' & _ & Hins & Hown).
  assert (row = row') as -> by congruence.
  rewrite PolicyFacts.update_permitted.
  by rewrite (PolicyFacts.owned_by_null_owner c row' Hown).
Qed.

(** The phone number of the record is in normalized form: normalizing it
    again, with any country code, returns it. *)
Lemma sell_form_phone_normalized st url c :
  is_dial_code (countryCode st) = true →
  ∃ p, record st url !! "seller_phone" = Some (Schema.VStr p) ∧
       normalizePhone c p = p.
Proof.
  intros H. eexists. split; [apply record_seller_phone |].
  by apply PhoneFacts.normalizePhone_twice.
Qed.

(** *** Step gating *)










(** The steps stay within 1..3. *)
Lemma clickBack_in_range st :
  (1 ≤ step st ≤ 3)%nat → (1 ≤ step (clickBack st) ≤ 3)%nat.
Proof.
  intros H. unfold clickBack, backShown.
  destruct (Nat.ltb_spec 1 (step st)); simpl; lia.
Qed.

Lemma clickNext_in_range st :
  (1 ≤ step st ≤ 3)%nat → (1 ≤ step (clickNext st) ≤ 3)%nat.
Proof.
  intros H. unfold clickNext, nextShown.
  destruct (Nat.ltb_spec (step st) 3); simpl; [| lia].
  destruct (negb _); simpl; lia.
Qed.

(** *** Submission *)

Lemma trySubmit_setLoading b l st :
  trySubmit b (setLoading l st) = trySubmit b st.
Proof. reflexivity. Qed.

Lemma trySubmit_rejected b st e :
  rejection b st = Some e → ∃ thrown, trySubmit b st = inl thrown.
Proof.
  unfold rejection, trySubmit, resolveImageUrl.
  destruct (imageFile st) as [f|].
  - destruct (upload b _ f); [by eexists |].
    intros ->. by eexists.
  - intros ->. by eexists.
Qed.

Lemma trySubmit_accepted b st :
  rejection b st = None → ∃ r, trySubmit b st = inr r.
Proof.
  unfold rejection, trySubmit, resolveImageUrl.
  destruct (imageFile st) as [f|].
  - destruct (upload b _ f); [done |].
    intros ->. by eexists.
  - intros ->. by eexists.
Qed.

Lemma handleSubmit_retry b st :
  handleSubmit b (setLoading false st) = handleSubmit b st.
Proof. reflexivity. Qed.

(** C9. When the storage side rejects a submission (the upload or the
    insert answers with an error), the error is logged and an alert with
    its message is shown (for an upload, the message with the hint about
    the bucket; for an insert, the error's message, or a fixed text when
    it is not an [Error]); the modal stays open; the form data, step,
    chosen file and country code are as before and [loading] is off, so
    Publish is enabled as it was and a retry submits the same form.  When
    the storage side accepts, the form is back in its initial state (step
    1, default values), [onSuccess] and [onClose] are called and the modal
    is closed. *)
Theorem handleSubmit_outcome b st :
  (∀ e, rejection b st = Some e →
     (∃ text, alert text ∈ (handleSubmit b st).2) ∧
     open_after (handleSubmit b st).2 true = true ∧
     formData (handleSubmit b st).1 = formData st ∧
     step (handleSubmit b st).1 = step st ∧
     imageFile (handleSubmit b st).1 = imageFile st ∧
     countryCode (handleSubmit b st).1 = countryCode st ∧
     loading (handleSubmit b st).1 = false ∧
     (handleSubmit b st).1 = setLoading false st ∧
     publishDisabled (handleSubmit b st).1 = negb (canProceedStep3 st) ∧
     (∀ b', handleSubmit b' (handleSubmit b st).1 = handleSubmit b' st)) ∧
  (∀ f e, imageFile st = Some f → upload b (fileNameFor b f) f = Some e →
     let text := message e ++ lit ". Create a public bucket named " ++ [34] ++
                 lit "product-images" ++ [34] ++ lit " in Supabase Storage." in
     (handleSubmit b st).2
     = [console_error {| instanceof_Error := true; message := text |};
        alert text]) ∧
  (∀ url e, resolveImageUrl b st = inr url →
     insert b (record st url) = Some e →
     (handleSubmit b st).2
     = [console_error e;
        alert (if instanceof_Error e then message e
               else lit "Failed to create product. Please try again.")]) ∧
  (rejection b st = None →
     formData (handleSubmit b st).1 = defaultFormData ∧
     step (handleSubmit b st).1 = 1%nat ∧
     (handleSubmit b st).1 = initialState ∧
     (handleSubmit b st).2 = [onSuccess; onClose] ∧
     open_after (handleSubmit b st).2 true = false).
Proof.
  unfold handleSubmit. rewrite trySubmit_setLoading.
  split; [| split; [| split]].
  - intros e [thrown ->]%trySubmit_rejected. cbn [fst snd].
    split; [eexists; apply list_elem_of_further, list_elem_of_here |].
    repeat (split; [done |]).
    split; [unfold publishDisabled; apply orb_false_r |].
    intros b'. apply handleSubmit_retry.
  - intros f e Hf He. unfold trySubmit, resolveImageUrl. by rewrite Hf, He.
  - intros url e Hurl He. unfold trySubmit. by rewrite Hurl, He.
  - intros [r ->]%trySubmit_accepted. done.
Qed.

Lemma handleSubmit_outcome_witness :
  rejection Store.refusing Store.filled_form = Some Store.policy_error ∧
  formData (handleSubmit Store.refusing Store.filled_form).1
  = formData Store.filled_form ∧
  step (handleSubmit Store.refusing Store.filled_form).1 = 3%nat ∧
  publishDisabled (handleSubmit Store.refusing Store.filled_form).1 = false ∧
  (handleSubmit Store.refusing Store.filled_form).2
  = [console_error Store.policy_error;
     alert (lit "Failed to create product. Please try again.")].
Proof.
  split; [reflexivity |].
  destruct (handleSubmit_outcome Store.refusing Store.filled_form)
    as (Hrej & _ & Hins & _).
  destruct (Hrej Store.policy_error eq_refl)
    as (_ & _ & Hform & Hstep & _ & _ & _ & _ & Hpub & _).
  split; [exact Hform |]. split; [exact Hstep |]. split; [exact Hpub |].
  exact (Hins [] Store.policy_error eq_refl eq_refl).
Defined.

(** Blur followed by submit sends the phone number a submit alone would
    send. *)
Lemma blur_then_submit st url :
  is_dial_code (countryCode st) = true →
  record (blurSellerPhone st) url !! "seller_phone"
  = record st url !! "seller_phone".
Proof.
  intros H. rewrite !record_seller_phone. cbn [blurSellerPhone setFormData
    formData countryCode sellerPhone].
  do 2 f_equal. by apply PhoneFacts.normalizePhone_twice.
Qed.

(** *** Reachable states *)

Lemma categories_have_suggestions :
  Forall (λ c, is_Some (suggestion descriptionSuggestions c)) categories.
Proof. repeat constructor; by eexists. Qed.

Lemma clickBack_countryCode st : countryCode (clickBack st) = countryCode st.
Proof. unfold clickBack. by destruct (backShown st). Qed.

Lemma clickNext_countryCode st : countryCode (clickNext st) = countryCode st.
Proof. unfold clickNext. by destruct (_ && _). Qed.

Lemma handleSubmit_state b st :
  (handleSubmit b st).1 = initialState ∨
  (handleSubmit b st).1 = setLoading false st.
Proof. unfold handleSubmit. destruct (trySubmit _ _); [by right | by left]. Qed.

Lemma in_range_initial : in_range initialState.
Proof. split; [simpl; lia | apply list_elem_of_here]. Qed.

Lemma in_range_setFormData f st : in_range st → in_range (setFormData f st).
Proof. intros H. exact H. Qed.

Lemma in_range_setImageFile file st :
  in_range st → in_range (setImageFile file st).
Proof. intros H. exact H. Qed.

Lemma in_range_setLoading l st : in_range st → in_range (setLoading l st).
Proof. intros H. exact H. Qed.

Lemma in_range_on_step n st st' :
  in_range st → in_range st' → in_range (on_step n st st').1.
Proof. intros H H'. unfold on_step. by destruct (Nat.eqb _ n). Qed.

Lemma in_range_clickBack st : in_range st → in_range (clickBack st).
Proof.
  intros [Hs Hc]. split; [by apply clickBack_in_range |].
  by rewrite clickBack_countryCode.
Qed.

Lemma in_range_clickNext st : in_range st → in_range (clickNext st).
Proof.
  intros [Hs Hc]. split; [by apply clickNext_in_range |].
  by rewrite clickNext_countryCode.
Qed.

Lemma in_range_handle ev st : in_range st → in_range (handle ev st).1.
Proof.
  intros H. destruct ev; cbn [handle].
  - by apply in_range_on_step.
  - destruct (categories !! _); [by apply in_range_on_step | done].
  - by apply in_range_on_step.
  - by apply in_range_on_step.
  - by apply in_range_on_step.
  - by apply in_range_on_step.
  - apply in_range_on_step; [done |]. by destruct (truthy value).
  - destruct (Nat.eqb _ 2); [| done]. unfold handleFileUpload.
    by destruct (negb _).
  - by apply in_range_on_step.
  - destruct (countryCodes !! _) as [code|] eqn:Hcode; [| done].
    apply in_range_on_step; [done |]. split; [apply H |].
    by eapply list_elem_of_lookup_2.
  - by apply in_range_on_step.
  - by apply in_range_on_step.
  - by apply in_range_clickBack.
  - by apply in_range_clickNext.
  - unfold clickPublish. destruct (_ && _); [| done].
    destruct (handleSubmit_state b st) as [-> | ->];
      [apply in_range_initial | done].
Qed.

(** Every reachable state is on one of the three steps and holds one of
    the offered country codes. *)
Lemma reachable_invariant st : reachable st → in_range st.
Proof.
  induction 1; [apply in_range_initial | by apply in_range_handle].
Qed.

Lemma reachable_dial_code st :
  reachable st → is_dial_code (countryCode st) = true.
Proof.
  intros [_ H]%reachable_invariant.
  by apply (proj1 (Forall_forall _ _) PhoneFacts.countryCodes_dial_codes).
Qed.

(** In every reachable state the record the form would submit carries a
    phone number in normalized form. *)
Lemma reachable_phone_normalized st url c :
  reachable st →
  ∃ p, record st url !! "seller_phone" = Some (Schema.VStr p) ∧
       normalizePhone c p = p.
Proof. intros H. by apply sell_form_phone_normalized, reachable_dial_code. Qed.

End SellFormFacts.

(** ** The edit form *)
Module EditFormFacts.
Import JsString Phone Client EditForm.

Lemma payload_owner_id st : payload st !! "owner_id" = None.
Proof.
  unfold payload. rewrite !lookup_insert_ne by done. apply lookup_empty.
Qed.

(** The edit form hands the phone field to the store as it was typed. *)
Lemma payload_seller_phone st :
  payload st !! "seller_phone"
  = Some (Schema.VStr (sellerPhone (formData st))).
Proof.
  unfold payload. rewrite !lookup_insert_ne by done. apply lookup_insert_eq.
Qed.

Lemma updated_row_seller_phone old st :
  Schema.seller_phone (Schema.updated_row old (payload st))
  = sellerPhone (formData st).
Proof. reflexivity. Qed.

(** The update leaves the owner column alone, so the owner may save. *)
Lemma updated_row_owner_id old st :
  Schema.owner_id (Schema.updated_row old (payload st)) = Schema.owner_id old.
Proof. reflexivity. Qed.

Lemma owner_save_permitted u old st :
  Schema.owner_id old = Some u →
  Policy.update_verdict Policy.products (Policy.signed_in u) old
    (Schema.updated_row old (payload st)) = Policy.permitted.
Proof.
  intros H. apply PolicyFacts.update_by_owner; [done |].
  by rewrite updated_row_owner_id.
Qed.

(** No country code makes [98765 43210] a normalized phone number. *)
Lemma spaced_number_not_normalized c :
  normalizePhone c (lit "98765 43210") ≠ lit "98765 43210".
Proof.
  unfold normalizePhone.
  change (trim (lit "98765 43210")) with (lit "98765 43210").
  change (negb (truthy (lit "98765 43210"))) with false.
  change (startsWith (lit "98765 43210") [plus_sign]) with false.
  change (remove_leading_zeros (remove_non_digits (lit "98765 43210")))
    with (lit "9876543210").
  cbv iota.
  destruct (startsWith _ _); [discriminate |].
  destruct c as [|x [|y c]]; try discriminate.
  intros H. apply (f_equal length) in H. rewrite length_app in H.
  simpl in H. lia.
Qed.

(** C7 (the code departs from the claim). The owner of a listing retypes
    the phone number as [98765 43210] in the edit form and saves: the
    policies permit the update, and the stored [seller_phone] is the text
    as typed, which is not a normalized number for any country code. *)
Theorem edit_form_stores_raw_phone :
  let old := Policy.sample_row (Some (lit "alice")) in
  let new := Schema.updated_row old (payload Store.edited_form) in
  Policy.update_verdict Policy.products (Policy.signed_in (lit "alice"))
                        old new = Policy.permitted ∧
  Schema.seller_phone new = lit "98765 43210" ∧
  ∀ c, normalizePhone c (Schema.seller_phone new) ≠ Schema.seller_phone new.
Proof.
  split; [reflexivity |]. split; [reflexivity |].
  apply spaced_number_not_normalized.
Qed.

End EditFormFacts.

(** ** The marketplace page *)
Module AppFacts.
Import JsString App.

(** *** The banner hash *)

Lemma to_uint32_step h c :
  to_uint32 (to_uint32 h * 31 + c) = to_uint32 (h * 31 + c).
Proof.
  unfold to_uint32.
  rewrite <- (N.Div0.add_mod_idemp_l (h mod 2 ^ 32 * 31)).
  rewrite N.Div0.mul_mod_idemp_l.
  by rewrite N.Div0.add_mod_idemp_l.
Qed.

Lemma hash_loop h s :
  fold_left (λ hash c, to_uint32 (hash * 31 + c)) s (to_uint32 h)
  = to_uint32 (h * 31 ^ N.of_nat (length s) + hashPolynomial s).
Proof.
  revert h. induction s as [|c s IH]; intros h.
  - simpl. f_equal. lia.
  - cbn [fold_left]. rewrite to_uint32_step, IH. f_equal.
    cbn [hashPolynomial length]. rewrite Nat2N.inj_succ, N.pow_succ_r'. lia.
Qed.

Lemma hashPolynomial_app s t :
  hashPolynomial (s ++ t)
  = hashPolynomial s * 31 ^ N.of_nat (length t) + hashPolynomial t.
Proof.
  induction s as [|c s IH]; [simpl; lia |].
  cbn [app hashPolynomial]. rewrite IH, length_app, Nat2N.inj_add, N.pow_add_r.
  lia.
Qed.

Lemma hashString_polynomial s : hashString s = to_uint32 (hashPolynomial s).
Proof.
  unfold hashString. change 0 with (to_uint32 0) at 1.
  rewrite hash_loop. f_equal.
Qed.

(** X1. [hashString] is the polynomial in 31 whose coefficients are the
    code units of the string, reduced modulo 2^32; its value is below
    2^32. *)
Theorem hashString_closed_form s :
  hashString s = hashPolynomial s mod 2 ^ 32 ∧ hashString s < 2 ^ 32.
Proof.
  rewrite hashString_polynomial. unfold to_uint32.
  split; [done | by apply N.mod_lt].
Qed.

(** X2. The hash of a concatenation is computed from the hashes of the
    parts: the hash of the first part is shifted by one power of 31 per
    code unit of the second. *)
Theorem hashString_app s t :
  hashString (s ++ t)
  = (hashString s * 31 ^ N.of_nat (length t) + hashString t) mod 2 ^ 32.
Proof.
  rewrite !hashString_polynomial, hashPolynomial_app. unfold to_uint32.
  symmetry. rewrite N.Div0.add_mod_idemp_r.
  rewrite <- N.Div0.add_mod_idemp_l, N.Div0.mul_mod_idemp_l.
  by rewrite N.Div0.add_mod_idemp_l.
Qed.

Lemma palette_lookup n :
  (n < 6)%nat → is_Some (BANNER_PALETTES !! n).
Proof.
  intros H. do 6 (destruct n as [|n]; [by eexists |]). lia.
Qed.

(** X3. Whatever the listing, the palette index is below the number of
    palettes, so [getBannerStyle] always finds a palette and returns a
    gradient. *)
Theorem getBannerStyle_defined p :
  paletteIndex p < 6 ∧ is_Some (getBannerStyle p).
Proof.
  assert (H : paletteIndex p < 6) by (by apply N.mod_lt).
  split; [done |]. unfold getBannerStyle.
  destruct (palette_lookup (N.to_nat (paletteIndex p))) as [[a b] ->];
    [lia | by eexists].
Qed.

(** *** Search and the feed *)

Lemma filter_sublist {A} (f : A → bool) l : List.filter f l `sublist_of` l.
Proof.
  induction l as [|x l IH]; simpl; [constructor |].
  destruct (f x); by constructor.
Qed.

Lemma filter_all {A} (f : A → bool) l :
  Forall (λ x, f x = true) (List.filter f l).
Proof.
  induction l as [|x l IH]; simpl; [constructor |].
  destruct (f x) eqn:Hx; [by constructor | done].
Qed.

Lemma filterProducts_sublist toLowerCase products selectedCategory searchQuery :
  filterProducts toLowerCase products selectedCategory searchQuery
    `sublist_of` products.
Proof.
  unfold filterProducts. destruct (negb _), (truthy _).
  - etrans; apply filter_sublist.
  - apply filter_sublist.
  - apply filter_sublist.
  - done.
Qed.

(** X4. [filterProducts] keeps the products in their order, and keeps
    exactly those that are in the selected category (any, for [All]) and,
    when a query is typed, contain the lowered query in their lowered
    title, description or category. *)
Theorem filterProducts_spec toLowerCase products selectedCategory searchQuery :
  filterProducts toLowerCase products selectedCategory searchQuery
    `sublist_of` products ∧
  ∀ p, In p (filterProducts toLowerCase products selectedCategory searchQuery)
       ↔ In p products ∧
         (selectedCategory = lit "All" ∨ Schema.category p = selectedCategory) ∧
         (searchQuery = [] ∨
          matchesQuery toLowerCase (toLowerCase searchQuery) p = true).
Proof.
  split; [apply filterProducts_sublist |].
  unfold filterProducts. intros p. destruct (bool_decide_reflect (selectedCategory = lit "All"))
      as [Hall | Hall]; cbn [negb];
      destruct searchQuery as [|q0 q]; cbn [truthy];
      rewrite ?filter_In, ?bool_decide_eq_true; intuition congruence.
Qed.

(** X5. [searchSuggestions] offers at most six products, in the order of
    the feed, each of which contains the trimmed, lowered query. *)
Theorem searchSuggestions_spec toLowerCase products searchQuery :
  let found := searchSuggestions toLowerCase products searchQuery in
  (length found ≤ 6)%nat ∧
  found `sublist_of` products ∧
  Forall (λ p, matchesQuery toLowerCase (toLowerCase (trim searchQuery)) p
               = true) found.
Proof.
  unfold searchSuggestions, slice. cbn [drop].
  destruct (negb _).
  - split; [simpl; lia |]. split; [apply sublist_nil_l | constructor].
  - split; [rewrite length_take; lia |]. split.
    + etrans; [apply sublist_take | apply filter_sublist].
    + apply Forall_take, filter_all.
Qed.


Lemma rowsFrom_spec fuel i l :
  (length l - i ≤ fuel)%nat →
  concat (rowsFrom fuel i l) = drop i l ∧
  Forall (λ row, (1 ≤ length row ≤ 4)%nat) (rowsFrom fuel i l) ∧
  length (rowsFrom fuel i l) = ((length l - i + 3) / 4)%nat.
Proof.
  revert i. induction fuel as [|fuel IH]; intros i Hfuel; cbn [rowsFrom].
  - rewrite drop_ge by lia. repeat split; [constructor |].
    replace (length l - i)%nat with 0%nat by lia. done.
  - destruct (Nat.ltb_spec i (length l)) as [Hi | Hi].
    + destruct (IH (i + 4)%nat) as (Hcat & Hrows & Hlen); [lia |].
      unfold slice. replace (i + 4 - i)%nat with 4%nat by lia.
      split; [| split].
      * cbn [concat]. rewrite Hcat, <- drop_drop.
        apply take_drop.
      * constructor; [| done]. rewrite length_take, length_drop. lia.
      * cbn [length]. rewrite Hlen.
        destruct (Nat.le_gt_cases 4 (length l - i)) as [H4 | H4].
        -- replace (length l - i + 3)%nat
             with (length l - (i + 4) + 3 + 1 * 4)%nat by lia.
           rewrite Nat.div_add by lia. lia.
        -- replace (length l - (i + 4) + 3)%nat with 3%nat by lia.
           change (3 / 4)%nat with 0%nat.
           apply (Nat.div_unique _ 4 1 (length l - i - 1)); lia.
    + rewrite drop_ge by lia. repeat split; [constructor |].
      replace (length l - i)%nat with 0%nat by lia. done.
Qed.

(** X7. [featuredRows] cuts the feed into rows without losing, repeating
    or reordering a product: the rows put together are the feed, every
    row holds between one and four products, and there are as many rows
    as the length divided by four, rounded up. *)
Theorem featuredRows_spec featured :
  concat (featuredRows featured) = featured ∧
  Forall (λ row, (1 ≤ length row ≤ 4)%nat) (featuredRows featured) ∧
  length (featuredRows featured) = ((length featured + 3) / 4)%nat.
Proof.
  unfold featuredRows.
  destruct (rowsFrom_spec (length featured) 0 featured) as (H1 & H2 & H3);
    [lia |].
  rewrite Nat.sub_0_r in H3. done.
Qed.

(** *** Images *)

Lemma trim_blank s : Forall (λ c, is_white_space c = true) s → trim s = [].
Proof.
  intros H. unfold trim, trimStart, trimEnd. rewrite <- (app_nil_r s).
  by rewrite JsStringFacts.drop_while_all.
Qed.

(** X8. Marking an image as broken turns the real image of exactly the
    products with that id off and leaves every other product's answer as
    it was. *)
Theorem hasRealImage_markBroken brokenImageIds id p :
  hasRealImage (markBroken id brokenImageIds) p
  = hasRealImage brokenImageIds p && negb (bool_decide (Schema.id p = id)).
Proof.
  unfold hasRealImage, markBroken.
  rewrite <- (andb_assoc (_ && _)), <- negb_orb, <- bool_decide_or.
  do 2 f_equal. apply bool_decide_ext.
  rewrite elem_of_union, elem_of_singleton. tauto.
Qed.

(** X9. A product whose image address is empty or only white space never
    counts as having a real image, so its banner is shown. *)
Theorem hasRealImage_blank brokenImageIds p :
  Forall (λ c, is_white_space c = true) (Schema.image_url p) →
  hasRealImage brokenImageIds p = false.
Proof.
  intros H. unfold hasRealImage.
  assert (Ht : trim (if truthy (Schema.image_url p) then Schema.image_url p
                     else []) = []).
  { destruct (truthy _); [by apply trim_blank | done]. }
  by rewrite Ht.
Qed.

Lemma hasRealImage_blank_witness :
  Forall (λ c, is_white_space c = true)
         (Schema.image_url (Policy.sample_row None)) ∧
  hasRealImage ∅ (Policy.sample_row None) = false.
Proof.
  split; [constructor |].
  apply (hasRealImage_blank ∅ (Policy.sample_row None)). constructor.
Defined.

(** *** The WhatsApp link *)

Lemma phoneDigits_digits ds :
  Forall (λ d, is_digit d = true) ds → phoneDigits ds = ds.
Proof. apply JsStringFacts.remove_non_digits_id. Qed.

(** X10. For a listing whose phone number was normalized with a dial
    code, the WhatsApp link dials that number: the address is
    [https://wa.me/] followed by the stored number without its [+]. *)
Theorem whatsAppUrl_dials_normalized encodeURIComponent numberToString c s p :
  Phone.is_dial_code c = true →
  Schema.seller_phone p = Phone.normalizePhone c s →
  ∃ message,
    whatsAppUrl encodeURIComponent numberToString p
    = lit "https://wa.me/" ++ tail (Schema.seller_phone p) ++
      lit "?text=" ++ message.
Proof.
  intros Hc Hp. eexists. unfold whatsAppUrl. do 2 f_equal.
  rewrite Hp.
  destruct (PhoneFacts.normalizePhone_shape c s Hc) as [-> | (ds & -> & Hds)];
    [done |].
  cbn [tail]. by rewrite <- (phoneDigits_digits ds Hds) at 2.
Qed.

Lemma whatsAppUrl_dials_normalized_witness :
  Phone.is_dial_code (lit "+91") = true ∧
  ∃ message,
    whatsAppUrl (λ s, s) (λ _, lit "1200") (Policy.sample_row None)
    = lit "https://wa.me/" ++ lit "919876543210" ++ lit "?text=" ++ message.
Proof.
  split; [reflexivity |].
  apply (whatsAppUrl_dials_normalized (λ s, s) (λ _, lit "1200")
           (lit "+91") (lit "9876543210") (Policy.sample_row None));
    reflexivity.
Defined.

(** *** Theme *)

(** X11. The stored theme survives a reload: the theme read back after
    [persistTheme] is the one that was saved; and a storage without the
    key, or with any value other than [day], starts in night mode. *)
Theorem theme_round_trip m localStorage :
  initialTheme (persistTheme m localStorage) = m ∧
  (initialTheme localStorage = day
   ↔ localStorage !! "uniswap-theme" = Some (lit "day")).
Proof.
  split.
  - unfold initialTheme, persistTheme. rewrite lookup_insert_eq.
    by destruct m.
  - unfold initialTheme. destruct (localStorage !! "uniswap-theme") as [v|];
      [| done].
    destruct (bool_decide_reflect (v = lit "day")) as [-> | Hv]; [done |].
    split; [done | congruence].
Qed.

(** *** Signing in *)

(** X12. [handleAuth] calls the auth service exactly once, with the typed
    credentials and for the current mode, when both email and password
    are filled in, and not at all otherwise; it never changes the typed
    credentials. *)
Theorem handleAuth_calls svc st :
  List.filter is_auth_call (handleAuth svc st).2
  = (if truthy (authEmail st) && truthy (authPassword st) then
       [match authMode st with
        | login => signInWithPassword (authEmail st) (authPassword st)
        | signup => signUp (authEmail st) (authPassword st)
        end]
     else []) ∧
  authEmail (handleAuth svc st).1 = authEmail st ∧
  authPassword (handleAuth svc st).1 = authPassword st.
Proof.
  unfold handleAuth.
  destruct (truthy (authEmail st)), (truthy (authPassword st)); cbn [negb orb andb];
    try done.
  destruct (authMode st).
  - by destruct (signInError svc _ _).
  - by destruct (signUpError svc _ _).
Qed.

End AppFacts.

(** ** More on phone normalization *)
Module PhoneEdgeFacts.
Import JsString Phone JsStringFacts.

Lemma trim_nil_iff s :
  trim s = [] ↔ Forall (λ c, is_white_space c = true) s.
Proof.
  split.
  - intros H. destruct (PhoneFacts.trim_Trimmed s) as (l & r & Hs & Hl & Hr & _).
    rewrite H in Hs. rewrite Hs. by apply Forall_app.
  - apply AppFacts.trim_blank.
Qed.

Lemma normalizePhone_of_blank c s :
  Forall (λ ch, is_white_space ch = true) s → normalizePhone c s = [].
Proof.
  intros H%trim_nil_iff. unfold normalizePhone. by rewrite H.
Qed.

(** X13. Whatever the country code, the normalized phone number is empty
    exactly when the input is empty or consists of white space only. *)
Theorem normalizePhone_empty_iff c s :
  normalizePhone c s = [] ↔ Forall (λ ch, is_white_space ch = true) s.
Proof.
  rewrite <- trim_nil_iff. unfold normalizePhone.
  destruct (trim s) as [|a t]; cbn [truthy negb]; [done |].
  split; [| done].
  destruct (startsWith (a :: t) [plus_sign]); [done |].
  destruct (startsWith _ (remove_first plus_sign c)) eqn:Hsw; [done |].
  destruct c as [|c0 c]; [| done].
  by destruct (remove_leading_zeros _).
Qed.

(** X14. With a dial code, a phone number that is not empty after
    normalization is itself of the form of a dial code: [+] followed by
    decimal digits only. *)
Theorem normalizePhone_canonical c s :
  is_dial_code c = true →
  normalizePhone c s = [] ∨ is_dial_code (normalizePhone c s) = true.
Proof.
  intros H.
  destruct (PhoneFacts.normalizePhone_shape c s H) as [-> | (ds & -> & Hds)];
    [by left | right].
  cbn [is_dial_code]. rewrite N.eqb_refl. cbn [andb].
  apply forallb_forall. by apply List.Forall_forall.
Qed.

Lemma normalizePhone_canonical_witness :
  is_dial_code (lit "+44") = true ∧
  (normalizePhone (lit "+44") (lit "(020) 7946-0958") = [] ∨
   is_dial_code (normalizePhone (lit "+44") (lit "(020) 7946-0958")) = true).
Proof.
  split; [reflexivity |].
  apply (normalizePhone_canonical (lit "+44") (lit "(020) 7946-0958")).
  reflexivity.
Defined.

End PhoneEdgeFacts.

(** ** Runs of the sell form *)
Module SellFlowFacts.
Import JsString Phone Client SellForm SellFlow.

Lemma after_preserves (P : State → Prop) :
  (∀ ev st, P st → P (handle ev st).1) →
  ∀ events st, P st → P (after events st).
Proof.
  intros Hstep events. unfold after.
  induction events as [|ev events IH]; intros st H; [done |].
  cbn [fold_left]. by apply IH, Hstep.
Qed.

Lemma after_reachable events : reachable (after events initialState).
Proof.
  apply after_preserves; [| constructor].
  intros ev st H. by constructor.
Qed.

Lemma on_step_preserves (P : State → Prop) n st st' :
  P st → P st' → P (on_step n st st').1.
Proof. intros H H'. unfold on_step. by destruct (Nat.eqb _ n). Qed.

(** X15. Whatever the user does, the sell form is on step 1, 2 or 3 and
    its country code is one of the offered dial codes. *)
Theorem sell_form_stays_in_range events :
  in_range (after events initialState).
Proof.
  apply after_preserves;
    [apply SellFormFacts.in_range_handle | apply SellFormFacts.in_range_initial].
Qed.

Lemma one_image_source_handle ev st :
  one_image_source st → one_image_source (handle ev st).1.
Proof.
  intros H. destruct ev; cbn [handle].
  - by apply on_step_preserves.
  - destruct (categories !! _); [by apply on_step_preserves | done].
  - by apply on_step_preserves.
  - by apply on_step_preserves.
  - by apply on_step_preserves.
  - by apply on_step_preserves.
  - apply on_step_preserves; [done |].
    destruct value as [|v0 v]; cbn [truthy]; [by intros _ | by intros []].
  - destruct (Nat.eqb _ 2); [| done]. unfold handleFileUpload.
    destruct (negb _); [done | by intros _].
  - by apply on_step_preserves.
  - destruct (countryCodes !! _); [by apply on_step_preserves | done].
  - by apply on_step_preserves.
  - by apply on_step_preserves.
  - cbn [fst]. unfold clickBack. by destruct (backShown st).
  - cbn [fst]. unfold clickNext. by destruct (_ && _).
  - unfold clickPublish. destruct (_ && _); [| done].
    destruct (SellFormFacts.handleSubmit_state b st) as [-> | ->];
      [by intros [] | done].
Qed.

(** X16. The two image variants exclude each other: whatever the user
    does, a chosen file and a typed image address are never both
    present. *)
Theorem sell_form_one_image_source events :
  one_image_source (after events initialState).
Proof.
  apply after_preserves; [apply one_image_source_handle | by intros []].
Qed.

Lemma steps_passed_handle ev st : steps_passed st → steps_passed (handle ev st).1.
Proof.
  intros H. pose proof H as [H1 H2]. destruct ev; cbn [handle].
  - unfold on_step. destruct (Nat.eqb_spec (step st) 1) as [E|]; [| done].
    split; cbn; lia.
  - destruct (categories !! _); [| done].
    unfold on_step. destruct (Nat.eqb_spec (step st) 1) as [E|]; [| done].
    split; cbn; lia.
  - unfold on_step. destruct (Nat.eqb_spec (step st) 1) as [E|]; [| done].
    split; cbn; lia.
  - unfold on_step. destruct (Nat.eqb_spec (step st) 1) as [E|]; [| done].
    split; cbn; lia.
  - unfold on_step. destruct (Nat.eqb_spec (step st) 2) as [E|]; [| done].
    split; [exact H1 | cbn; lia].
  - unfold on_step. destruct (Nat.eqb_spec (step st) 2) as [E|]; [| done].
    split; [exact H1 | cbn; lia].
  - apply on_step_preserves; [done |]. by destruct (truthy value).
  - destruct (Nat.eqb _ 2); [| done]. unfold handleFileUpload.
    by destruct (negb _).
  - by apply on_step_preserves.
  - destruct (countryCodes !! _); [by apply on_step_preserves | done].
  - by apply on_step_preserves.
  - by apply on_step_preserves.
  - cbn [fst]. unfold clickBack, backShown.
    destruct (Nat.ltb_spec 1 (step st)); [| done].
    split; cbn [step setStep]; intros Hs; [apply H1 | apply H2]; lia.
  - cbn [fst]. unfold clickNext, nextShown, nextDisabled.
    destruct (Nat.ltb_spec (step st) 3); [| done].
    destruct (Nat.eqb_spec (step st) 1) as [E1|E1];
      destruct (Nat.eqb_spec (step st) 2) as [E2|E2]; try lia;
      cbn [andb orb negb].
    + destruct (canProceedStep1 st) eqn:Hc; cbn [andb orb negb]; [| done].
      split; cbn [step setStep]; intros Hs; [exact Hc | lia].
    + destruct (canProceedStep2 st) eqn:Hc; cbn [andb orb negb]; [| done].
      split; cbn [step setStep]; intros Hs; [apply H1; lia | exact Hc].
    + split; cbn [step setStep]; intros Hs; lia.
  - unfold clickPublish. destruct (_ && _); [| done].
    destruct (SellFormFacts.handleSubmit_state b st) as [-> | ->]; [| done].
    split; cbn; lia.
Qed.

Lemma steps_passed_after events : steps_passed (after events initialState).
Proof.
  apply after_preserves; [apply steps_passed_handle |].
  split; cbn; lia.
Qed.

(** X17. Whatever the user did before, when the Publish button is shown
    and enabled every required field of all three steps is filled in:
    title, description, category, price, condition, seller name and
    phone. *)
Theorem publish_needs_all_fields events :
  let st := after events initialState in
  nextShown st = false → publishDisabled st = false →
  title (formData st) ≠ [] ∧ description (formData st) ≠ [] ∧
  category (formData st) ≠ [] ∧ price (formData st) ≠ [] ∧
  condition (formData st) ≠ [] ∧ sellerName (formData st) ≠ [] ∧
  sellerPhone (formData st) ≠ [].
Proof.
  intros st Hnext Hpub.
  destruct (steps_passed_after events) as [H1 H2]. fold st in H1, H2.
  unfold nextShown in Hnext. apply Nat.ltb_ge in Hnext.
  unfold publishDisabled in Hpub. apply orb_false_iff in Hpub as [Hc3 _].
  apply negb_false_iff in Hc3.
  specialize (H1 ltac:(lia)). specialize (H2 ltac:(lia)).
  unfold canProceedStep1, canProceedStep2, canProceedStep3 in *.
  repeat match goal with
  | H : _ && _ = true |- _ => apply andb_true_iff in H as [? ?]
  end.
  repeat split; intros E; rewrite E in *; done.
Qed.

Lemma publish_needs_all_fields_witness :
  nextShown (after fill_in initialState) = false ∧
  publishDisabled (after fill_in initialState) = false ∧
  title (formData (after fill_in initialState)) ≠ [].
Proof.
  split; [reflexivity |]. split; [reflexivity |].
  apply (publish_needs_all_fields fill_in); reflexivity.
Defined.

(** X18. The gate of the last step looks at the phone field as typed: with
    a seller name and a phone field of white space only, Publish is
    enabled, and the record handed to the store carries an empty phone
    number. *)
Theorem blank_phone_passes_gate st url :
  sellerName (formData st) ≠ [] → sellerPhone (formData st) ≠ [] →
  Forall (λ c, is_white_space c = true) (sellerPhone (formData st)) →
  canProceedStep3 st = true ∧
  record st url !! "seller_phone" = Some (Schema.VStr []).
Proof.
  intros Hn Hp Hws. split.
  - unfold canProceedStep3.
    destruct (sellerName (formData st)), (sellerPhone (formData st)); done.
  - rewrite SellFormFacts.record_seller_phone. do 2 f_equal.
    by apply PhoneEdgeFacts.normalizePhone_of_blank.
Qed.

Lemma blank_phone_passes_gate_witness :
  publishDisabled blank_phone_form = false ∧
  record blank_phone_form [] !! "seller_phone" = Some (Schema.VStr []).
Proof.
  split; [reflexivity |].
  apply (blank_phone_passes_gate blank_phone_form []).
  - discriminate.
  - discriminate.
  - repeat constructor.
Defined.

Lemma last_segment_spec acc s :
  46 ∉ acc →
  (46 ∉ last_segment acc s) ∧
  (reverse acc ++ s = last_segment acc s ∨
   ∃ pre, s = pre ++ 46 :: last_segment acc s).
Proof.
  revert acc. induction s as [|c s IH]; intros acc Hacc; cbn [last_segment].
  - split; [by rewrite elem_of_reverse | left; apply app_nil_r].
  - destruct (N.eqb_spec c 46) as [-> | Hc].
    + destruct (IH []) as [Hno [Heq | [pre Hpre]]]; [apply not_elem_of_nil | |].
      * split; [done |]. right. exists []. simpl in *. by rewrite <- Heq.
      * split; [done |]. right. exists (46 :: pre). simpl. by rewrite <- Hpre.
    + destruct (IH (c :: acc)) as [Hno [Heq | [pre Hpre]]].
      * rewrite elem_of_cons. intros [? | ?]; [congruence | done].
      * split; [done |]. left.
        by rewrite <- Heq, reverse_cons, <- app_assoc.
      * split; [done |]. right. exists (c :: pre). simpl. by rewrite <- Hpre.
Qed.

(** X19. The part of a file name the upload key takes its extension from
    holds no dot, and it is what follows the last dot of the name, or the
    whole name when the name has no dot. *)
Theorem last_segment_of_name name :
  (46 ∉ last_segment [] name) ∧
  (name = last_segment [] name ∨
   ∃ pre, name = pre ++ 46 :: last_segment [] name).
Proof. apply (last_segment_spec [] name), not_elem_of_nil. Qed.

End SellFlowFacts.

(** ** Editing a listing *)
Module EditFlowFacts.
Import JsString Client EditForm EditFlow.

(** X20. Opening the edit form on a listing and saving at once writes the
    listing back as it was: every column keeps its value, except that the
    price goes through its text form and [Number]. *)
Theorem load_then_save numberToString product st :
  Schema.updated_row product (payload (loadProduct numberToString product st))
  = {| Schema.id := Schema.id product;
       Schema.title := Schema.title product;
       Schema.description := Schema.description product;
       Schema.price := Schema.Number (numberToString (Schema.price product));
       Schema.condition := Schema.condition product;
       Schema.category := Schema.category product;
       Schema.image_url := Schema.image_url product;
       Schema.seller_name := Schema.seller_name product;
       Schema.seller_phone := Schema.seller_phone product;
       Schema.owner_id := Schema.owner_id product;
       Schema.created_at := Schema.created_at product |}.
Proof. reflexivity. Qed.

(** X21. Whatever the edit form holds, a save by the owner of the listing
    is permitted by the policies, and it leaves the identifier, the owner
    and the creation time of the row alone. *)
Theorem owner_save_goes_through u old st :
  Schema.owner_id old = Some u →
  let new := Schema.updated_row old (payload st) in
  Policy.update_verdict Policy.products (Policy.signed_in u) old new
  = Policy.permitted ∧
  Schema.id new = Schema.id old ∧
  Schema.owner_id new = Schema.owner_id old ∧
  Schema.created_at new = Schema.created_at old.
Proof.
  intros H new. split; [by apply EditFormFacts.owner_save_permitted | done].
Qed.

Lemma owner_save_goes_through_witness :
  Schema.owner_id (Policy.sample_row (Some (lit "alice"))) = Some (lit "alice") ∧
  Policy.update_verdict Policy.products (Policy.signed_in (lit "alice"))
    (Policy.sample_row (Some (lit "alice")))
    (Schema.updated_row (Policy.sample_row (Some (lit "alice")))
                        (payload Store.edited_form))
  = Policy.permitted.
Proof.
  split; [reflexivity |].
  apply (owner_save_goes_through (lit "alice")
           (Policy.sample_row (Some (lit "alice"))) Store.edited_form).
  reflexivity.
Defined.

Lemma update_not_owned c row new :
  Policy.owned_by c row = false →
  Policy.update_verdict Policy.products c row new = Policy.no_row.
Proof.
  intros H. unfold Policy.update_verdict.
  by rewrite PolicyFacts.select_using, PolicyFacts.update_using, H.
Qed.

Lemma update_where_id_not_owned c p id rows :
  Forall (λ r, Schema.id r = id → Policy.owned_by c r = false) rows →
  update_where_id Policy.products c p id rows = inr rows.
Proof.
  induction 1 as [|row rows Hrow _ IH]; [done |].
  cbn [update_where_id]. rewrite IH.
  destruct (bool_decide_reflect (Schema.id row = id)) as [Hid | Hid];
    cbn [negb]; [| done].
  by rewrite update_not_owned by auto.
Qed.

(** X22. A save by anyone who does not own the listing changes no stored
    row, and the edit form does not notice: no notice is shown, and the
    form reports success and closes. *)
Theorem foreign_save_is_dropped c rows product st :
  Forall (λ r, Schema.id r = Schema.id product → Policy.owned_by c r = false)
         rows →
  update_where_id Policy.products c (payload st) (Schema.id product) rows
  = inr rows ∧
  handleSave (backend Policy.products c rows) product st
  = ({| saving := false; formData := formData st |}, [onSuccess; onClose]).
Proof.
  intros H. split; [by apply update_where_id_not_owned |].
  unfold handleSave, backend. cbn [update].
  by rewrite update_where_id_not_owned.
Qed.

Lemma foreign_save_is_dropped_witness :
  Forall (λ r, Schema.id r = Schema.id (Policy.sample_row (Some (lit "bob"))) →
               Policy.owned_by (Policy.signed_in (lit "alice")) r = false)
         [Policy.sample_row (Some (lit "bob"))] ∧
  (handleSave (backend Policy.products (Policy.signed_in (lit "alice"))
                       [Policy.sample_row (Some (lit "bob"))])
              (Policy.sample_row (Some (lit "bob"))) Store.edited_form).2
  = [onSuccess; onClose].
Proof.
  assert (H : Forall (λ r, Schema.id r
                           = Schema.id (Policy.sample_row (Some (lit "bob"))) →
                 Policy.owned_by (Policy.signed_in (lit "alice")) r = false)
                [Policy.sample_row (Some (lit "bob"))]).
  { repeat constructor. }
  split; [exact H |].
  by rewrite (proj2 (foreign_save_is_dropped
                       (Policy.signed_in (lit "alice"))
                       [Policy.sample_row (Some (lit "bob"))]
                       (Policy.sample_row (Some (lit "bob")))
                       Store.edited_form H)).
Defined.


End EditFlowFacts.

(** ** More on the policies and the migrations *)
Module MigrationFacts.
Import JsString Schema Policy.

(** X24. Every caller, signed in or not, may read every row, and no
    caller may delete any row. *)
Theorem read_all_delete_none c row :
  select_verdict products c row = permitted ∧
  delete_verdict products c row = no_row.
Proof.
  unfold select_verdict, delete_verdict.
  by rewrite PolicyFacts.select_using, PolicyFacts.delete_using.
Qed.

Lemma has_policy_app name cols rs l1 l2 :
  has_policy name {| columns := cols; row_security := rs; policies := l1 ++ l2 |}
  = existsb (λ p, String.eqb (polname p) name) l1
    || existsb (λ p, String.eqb (polname p) name) l2.
Proof. unfold has_policy. cbn [policies]. apply existsb_app. Qed.

(** X25. The first migration cannot be run on a table that already has
    one of its two policies, and runs on every other existing table. *)
Theorem create_products_table_rerun t :
  run create_products_table (Some t) = None
  ↔ has_policy "Anyone can view products" t = true ∨
    has_policy "Anyone can create products" t = true.
Proof.
  unfold create_products_table. cbn [run exec mbind option_bind].
  cbn [polname polqual polwithcheck mentions_owner_id orb andb].
  change (has_policy "Anyone can view products"
            {| columns := columns t; row_security := true;
               policies := policies t |})
    with (has_policy "Anyone can view products" t).
  destruct (has_policy "Anyone can view products" t) eqn:Hview;
    cbn [mbind option_bind]; [by split; [left |] |].
  rewrite <- (app_nil_r (policies t ++ _)), <- app_assoc, has_policy_app.
  change (existsb _ (policies t)) with (has_policy "Anyone can create products" t).
  destruct (has_policy "Anyone can create products" t); cbn;
    [by split; [right |] |].
  split; [done | by intros [|]].
Qed.

Lemma kept_cons p l :
  Rerun.kept (p :: l)
  = if String.eqb (polname p) "Authenticated can view products"
       || String.eqb (polname p) "Authenticated can create products"
       || String.eqb (polname p) "Authenticated can update products"
    then Rerun.kept l else p :: Rerun.kept l.
Proof.
  unfold Rerun.kept. cbn [List.filter].
  destruct (String.eqb (polname p) "Authenticated can view products");
    cbn [negb orb List.filter]; [done |].
  destruct (String.eqb (polname p) "Authenticated can create products");
    cbn [negb orb List.filter]; [done |].
  by destruct (String.eqb (polname p) "Authenticated can update products").
Qed.

Lemma kept_app l1 l2 : Rerun.kept (l1 ++ l2) = Rerun.kept l1 ++ Rerun.kept l2.
Proof. unfold Rerun.kept. by rewrite !List.filter_app. Qed.

Lemma kept_kept l : Rerun.kept (Rerun.kept l) = Rerun.kept l.
Proof.
  induction l as [|p l IH]; [done |]. rewrite kept_cons.
  destruct (_ || _) eqn:Hp; [done |]. by rewrite kept_cons, Hp, IH.
Qed.

Lemma kept_no_owner_policy l :
  existsb (λ p, String.eqb (polname p) "Authenticated can view products"
                || String.eqb (polname p) "Authenticated can create products"
                || String.eqb (polname p) "Authenticated can update products")
          (Rerun.kept l) = false.
Proof.
  induction l as [|p l IH]; [done |]. rewrite kept_cons.
  destruct (_ || _) eqn:Hp; [done |]. cbn [existsb]. by rewrite Hp.
Qed.

Lemma existsb_weaken {A} (f g : A → bool) k :
  (∀ x, f x = true → g x = true) → existsb g k = false → existsb f k = false.
Proof.
  intros Hfg. induction k as [|a k IH]; cbn [existsb]; [done |].
  intros [Ha Hk]%orb_false_iff. rewrite (IH Hk), orb_false_r.
  destruct (f a) eqn:E; [| done]. apply Hfg in E. congruence.
Qed.

Lemma kept_has_policy name cols rs l extra :
  (String.eqb name "Authenticated can view products"
   || String.eqb name "Authenticated can create products"
   || String.eqb name "Authenticated can update products") = true →
  has_policy name {| columns := cols; row_security := rs;
                     policies := Rerun.kept l ++ extra |}
  = existsb (λ p, String.eqb (polname p) name) extra.
Proof.
  intros Hname. rewrite has_policy_app.
  erewrite existsb_weaken; [done | | apply kept_no_owner_policy].
  intros p Hp%String.eqb_eq. cbn beta. by rewrite Hp.
Qed.

Lemma column_type_None col t :
  column_type col t = None ↔ has_column col t = false.
Proof.
  unfold column_type, has_column.
  induction (columns t) as [|c l IH]; cbn [List.find existsb]; [done |].
  destruct (String.eqb col c.1); cbn [orb]; [done | exact IH].
Qed.

Lemma migrated_has_owner_id t : has_column "owner_id" (Rerun.migrated t) = true.
Proof.
  unfold Rerun.migrated, has_column at 1. cbn [columns].
  destruct (has_column "owner_id" t) eqn:H; [exact H |].
  rewrite existsb_app. cbn. apply orb_true_r.
Qed.

(** After the column is added if missing, [owner_id] compares with
    [auth.uid()] exactly when the table had no such column or had it with
    type [uuid]. *)
Lemma owner_column_after_add t rs ps :
  owner_id_comparable
    {| columns := if has_column "owner_id" t then columns t
                  else columns t ++ [("owner_id"%string, sql_uuid)];
       row_security := rs; policies := ps |}
  = Rerun.accepts_owner_column t.
Proof.
  unfold Rerun.accepts_owner_column.
  destruct (has_column "owner_id" t) eqn:H; cbn [negb orb]; [done |].
  apply column_type_None in H.
  unfold owner_id_comparable, column_type in *. cbn [columns].
  destruct (List.find _ (columns t)) as [c|] eqn:Hfind; [done |].
  assert (Happ : ∀ l, List.find (λ c, String.eqb "owner_id" c.1) l = None →
            List.find (λ c, String.eqb "owner_id" c.1)
                      (l ++ [("owner_id"%string, sql_uuid)])
            = Some ("owner_id"%string, sql_uuid)).
  { induction l as [|x l IH]; cbn [List.find app]; [done |].
    destruct (String.eqb "owner_id" x.1); [done | exact IH]. }
  by rewrite (Happ _ Hfind).
Qed.

Lemma enforce_owner_based_updates_run t :
  run enforce_owner_based_updates (Some t)
  = if Rerun.accepts_owner_column t then Some (Some (Rerun.migrated t))
    else None.
Proof.
  unfold enforce_owner_based_updates.
  cbn [run exec mbind option_bind columns row_security policies].
  cbn [polname polqual polwithcheck mentions_owner_id orb andb].
  fold (Rerun.kept (policies t)).
  rewrite <- (app_nil_r (Rerun.kept (policies t))) at 1.
  rewrite kept_has_policy by done. cbn [existsb mbind option_bind].
  rewrite (kept_has_policy _ _ _ _ [_]) by done.
  cbn [existsb polname String.eqb Ascii.eqb Bool.eqb orb].
  rewrite owner_column_after_add.
  destruct (Rerun.accepts_owner_column t) eqn:Hok;
    cbn [negb andb mbind option_bind columns row_security policies];
    [| done].
  rewrite <- app_assoc. cbn [app].
  rewrite (kept_has_policy _ _ _ _ [_; _]) by done.
  cbn [existsb polname String.eqb Ascii.eqb Bool.eqb orb app].
  rewrite owner_column_after_add, Hok.
  cbn [negb andb mbind option_bind columns row_security policies].
  by rewrite <- app_assoc.
Qed.

Lemma migrated_accepted t :
  Rerun.accepts_owner_column (Rerun.migrated t) = Rerun.accepts_owner_column t.
Proof.
  unfold Rerun.accepts_owner_column at 1.
  rewrite migrated_has_owner_id. cbn [negb orb].
  apply owner_column_after_add.
Qed.

Lemma migrated_migrated t : Rerun.migrated (Rerun.migrated t) = Rerun.migrated t.
Proof.
  unfold Rerun.migrated at 1. rewrite migrated_has_owner_id.
  unfold Rerun.migrated. cbn [columns policies]. f_equal.
  by rewrite kept_app, kept_kept, <- app_assoc.
Qed.

Lemma accepts_owner_column_types t :
  Rerun.accepts_owner_column t = true
  ↔ column_type "owner_id" t = None ∨ column_type "owner_id" t = Some sql_uuid.
Proof.
  unfold Rerun.accepts_owner_column, owner_id_comparable.
  rewrite orb_true_iff, negb_true_iff, <- column_type_None.
  destruct (column_type "owner_id" t) as [[]|]; intuition congruence.
Qed.

(** X26. On an existing table the second migration succeeds exactly when
    the table has no [owner_id] column yet or has one of type [uuid] (with
    an [owner_id] of type [text], [numeric] or [timestamptz] the
    comparison with [auth.uid()] in its policies is not defined); when it
    succeeds it can be run again, and the second run leaves the table
    exactly as the first run left it. Without the table it fails. *)
Theorem enforce_owner_based_updates_rerun t :
  (is_Some (run enforce_owner_based_updates (Some t))
   ↔ column_type "owner_id" t = None ∨
     column_type "owner_id" t = Some sql_uuid) ∧
  (∀ db, run enforce_owner_based_updates (Some t) = Some db →
         ∃ t', db = Some t' ∧
               run enforce_owner_based_updates (Some t') = Some (Some t')) ∧
  run enforce_owner_based_updates None = None.
Proof.
  rewrite <- accepts_owner_column_types, enforce_owner_based_updates_run.
  split; [| split; [| done]].
  - destruct (Rerun.accepts_owner_column t); split; done.
  - destruct (Rerun.accepts_owner_column t) eqn:Hok; [| done].
    intros db [= <-]. exists (Rerun.migrated t). split; [done |].
    by rewrite enforce_owner_based_updates_run, migrated_accepted, Hok,
               migrated_migrated.
Qed.

End MigrationFacts.
